(** * GitSyncService: the sync and publish workflows of the git extension

    A shallow embedding of [packages/git/src/browser/git-sync-service.ts].
    The service owns one boolean, [_syncing]; everything else it does is a
    call to a collaborator (the git client, the repository tracker, the
    quick-open and confirm dialogs, the message service, the change emitter).
    Each such call is recorded in a chronological trace, and the answers of
    the collaborators are read from an environment record, so that a
    workflow is an executable function from an environment and a starting
    state to an outcome, a final state and the list of calls it made. *)

From Stdlib Require Import String List Bool Arith Lia.
Import ListNotations.
Open Scope string_scope.

(** ** Values *)

(** [!!s] for a value of type [string | undefined]: defined and not the
    empty string. *)
Definition truthy (o : option string) : bool :=
  match o with
  | Some s => negb (String.eqb s "")
  | None => false
  end.

(** A template literal renders [undefined] by its name. *)
Definition interpolate (o : option string) : string :=
  match o with
  | Some s => s
  | None => "undefined"
  end.

Record Repository : Type := { localUri : string }.

Record AheadBehind : Type := { ahead : nat; behind : nat }.

(** Modelled from the spec: the status snapshot of [../common], which is not
    among the sources; the three optional fields the service reads. *)
Record WorkingDirectoryStatus : Type := {
  branch : option string;
  upstreamBranch : option string;
  aheadBehind : option AheadBehind
}.

(** What a rejected promise or a [throw] carries.  The service types it
    [any]: an object, with or without a [message] property (the client's
    command error is one), or a value that is not an object ([undefined],
    [null], a primitive), on which the [in] operator raises. *)
Inductive JsThrown : Type :=
| ErrorObject (message : option string)
| NonObject.

Definition is_object (e : JsThrown) : bool :=
  match e with
  | ErrorObject _ => true
  | NonObject => false
  end.

(** The [TypeError] of ['message' in e] when [e] is not an object; the text
    is the engine's. *)
Definition in_operator_TypeError : JsThrown :=
  ErrorObject (Some "Cannot use 'in' operator to search for 'message'").

(** A call either returns or throws; a promise, once settled, is either
    resolved or rejected. *)
Inductive Outcome (A : Type) : Type :=
| Returned (a : A)
| Threw (e : JsThrown).
Arguments Returned {A} a.
Arguments Threw {A} e.

Definition Promise (A : Type) : Type := Outcome A.

(** A promise is an object: [if (p)] takes the branch whatever [p] settles to. *)
Definition promise_truthy {A : Type} (p : Promise A) : bool := true.

(** ** Collaborators *)

Inductive Event : Type :=
| EvFire (syncing_now : bool)            (* onDidChangeEmitter.fire; the flag as observers read it *)
| EvPick (placeholder : string) (labels : list string)   (* quickOpenService.open *)
| EvConfirm (title msg : string)         (* new ConfirmDialog(..).open() *)
| EvRemote (repository : Repository)     (* git.remote *)
| EvStatus (repository : Repository)     (* git.status *)
| EvExec (repository : Repository) (args : list string)  (* git.exec *)
| EvWarn (msg : string)                  (* messageService.warn *)
| EvError (msg : string)                 (* messageService.error *)
| EvConsoleError (e : JsThrown).         (* console.error *)

(** The answers of the collaborators during one invocation.  [quickOpen]
    is the user's reaction to a pick list: the index of the item opened, or
    [None] when the list is closed. *)
Record Env : Type := {
  selectedRepository : option Repository;
  selectedRepositoryStatus : option WorkingDirectoryStatus;
  quickOpen : string -> list string -> option nat;
  confirmDialog : string -> string -> bool;
  git_remote : Repository -> Promise (list string);
  git_status : Repository -> Promise WorkingDirectoryStatus;
  git_exec : Repository -> list string -> Promise unit
}.

(** ** The service state and its monad *)

Record Ctl : Type := { _syncing : bool; trace : list Event }.

Definition start (syncing : bool) : Ctl := {| _syncing := syncing; trace := [] |}.

Definition M (A : Type) : Type := Ctl -> Outcome A * Ctl.

Definition ret {A : Type} (a : A) : M A := fun c => (Returned a, c).

Definition throw {A : Type} (e : JsThrown) : M A := fun c => (Threw e, c).

Definition bind {A B : Type} (m : M A) (k : A -> M B) : M B :=
  fun c =>
    match m c with
    | (Returned a, c') => k a c'
    | (Threw e, c') => (Threw e, c')
    end.

Notation "x <- m ;; k" := (bind m (fun x => k))
  (at level 61, m at next level, right associativity).
Notation "m ;; k" := (bind m (fun _ => k))
  (at level 61, right associativity).

(** [try { m } catch (e) { h e }] *)
Definition try_catch {A : Type} (m : M A) (h : JsThrown -> M A) : M A :=
  fun c =>
    match m c with
    | (Returned a, c') => (Returned a, c')
    | (Threw e, c') => h e c'
    end.

(** [try { m } finally { f }]: [f] runs on both exits, and the outcome of
    [m] is kept unless [f] itself throws. *)
Definition try_finally {A : Type} (m : M A) (f : M unit) : M A :=
  fun c =>
    match m c with
    | (r, c') =>
        match f c' with
        | (Returned _, c'') => (r, c'')
        | (Threw e, c'') => (Threw e, c'')
        end
    end.

Definition emit (ev : Event) : M unit :=
  fun c => (Returned tt, {| _syncing := _syncing c; trace := trace c ++ [ev] |}).

(** [await p] on a settled promise. *)
Definition await {A : Type} (p : Promise A) : M A := fun c => (p, c).

(** ** The service *)

Definition syncing (c : Ctl) : bool := _syncing c.

(** [this._syncing = syncing; this.onDidChangeEmitter.fire(undefined)] *)
Definition setSyncing (b : bool) : M unit :=
  fun c =>
    let c' := {| _syncing := b; trace := trace c |} in
    emit (EvFire (_syncing c')) c'.

Definition canSync (env : Env) (c : Ctl) : bool :=
  if _syncing c then false
  else
    match selectedRepositoryStatus env with
    | Some status => truthy (branch status) && truthy (upstreamBranch status)
    | None => false
    end.

Definition canPublish (env : Env) (c : Ctl) : bool :=
  if syncing c then false
  else
    match selectedRepositoryStatus env with
    | Some status => truthy (branch status) && negb (truthy (upstreamBranch status))
    | None => false
    end.

(** The user's answer to a pick list, as the promise of [pick] resolves:
    the value of the opened item, [None] when the list is closed. *)
Definition pick_answer {T : Type} (env : Env) (placeholder : string)
    (elements : list (string * T)) : option T :=
  match quickOpen env placeholder (map fst elements) with
  | Some i => option_map snd (nth_error elements i)
  | None => None
  end.

Definition pick {T : Type} (env : Env) (placeholder : string)
    (elements : list (string * T)) : M (option T) :=
  emit (EvPick placeholder (map fst elements)) ;;
  ret (pick_answer env placeholder elements).

(** The overload of [pick] on plain strings: label and value coincide. *)
Definition pick_strings (env : Env) (placeholder : string)
    (elements : list string) : M (option string) :=
  pick env placeholder (map (fun s => (s, s)) elements).

Definition confirm (env : Env) (title msg : string) : M bool :=
  emit (EvConfirm title msg) ;;
  ret (confirmDialog env title msg).

(** [if ('message' in e && e['message']) messageService.error(e['message'])
    else console.error(e)]; the [in] test raises on a value that is not an
    object. *)
Definition error (e : JsThrown) : M unit :=
  match e with
  | NonObject => throw in_operator_TypeError
  | ErrorObject (Some m) =>
      if truthy (Some m) then emit (EvError m) else emit (EvConsoleError e)
  | ErrorObject None => emit (EvConsoleError e)
  end.

Definition sync_methods : list (string * bool) :=
  [("Pull and push commits", false); ("Fetch, rebase and push commits", true)].

Definition shouldRebase (env : Env) : M (option bool) :=
  pick env "Pick a sync method:" sync_methods.

(** The value [shouldPush] resolves to:
    [status.aheadBehind && status.aheadBehind.ahead > 0 || true]. *)
Definition shouldPush_value (status : WorkingDirectoryStatus) : bool :=
  match aheadBehind status with
  | Some ab => (0 <? ahead ab)%nat
  | None => false
  end || true.

(** [shouldPush] is [async]: the call issues [git.status] and hands back a
    promise at once. *)
Definition shouldPush (env : Env) (repository : Repository) : M (Promise bool) :=
  emit (EvStatus repository) ;;
  ret (match git_status env repository with
       | Returned status => Returned (shouldPush_value status)
       | Threw e => Threw e
       end).

Definition pull_args (rebase : bool) : list string :=
  ["pull"] ++ (if rebase then ["-r"] else []).

(** [try { await this.git.exec(repository, args) } catch (e) { this.error(e) }] *)
Definition pull (env : Env) (repository : Repository) (rebase : bool) : M unit :=
  let args := pull_args rebase in
  try_catch
    (emit (EvExec repository args) ;; await (git_exec env repository args))
    error.

Record PushOptions : Type := {
  remote : option string;
  push_branch : option string;
  setUpstream : option bool
}.

(** The default [{}] of the second argument of [push]. *)
Definition no_options : PushOptions :=
  {| remote := None; push_branch := None; setUpstream := None |}.

Definition push_args (o : PushOptions) : list string :=
  ["push"]
  ++ (match setUpstream o with Some true => ["-u"] | _ => [] end)
  ++ (match remote o with Some r => if truthy (remote o) then [r] else [] | None => [] end)
  ++ (match push_branch o with Some b => if truthy (push_branch o) then [b] else [] | None => [] end).

Definition push (env : Env) (repository : Repository) (o : PushOptions) : M unit :=
  let args := push_args o in
  try_catch
    (emit (EvExec repository args) ;; await (git_exec env repository args))
    error.

Definition sync_message (rebase : bool) (upstream : option string) : string :=
  if rebase
  then "This action will fetch, rebase and push commits from and to '"
       ++ interpolate upstream ++ "'."
  else "This action will pull and push commits from and to '"
       ++ interpolate upstream ++ "'.".

(** [status && status.upstreamBranch] *)
Definition status_upstreamBranch (status : option WorkingDirectoryStatus)
    : option string :=
  match status with
  | Some st => upstreamBranch st
  | None => None
  end.

(** [status && status.branch] *)
Definition status_branch (status : option WorkingDirectoryStatus)
    : option string :=
  match status with
  | Some st => branch st
  | None => None
  end.

(** [sync] reads the repository and the status, leaves when [canSync()] is
    false or no repository is selected, asks for the method and for the
    confirmation, and then runs pull and push between [setSyncing(true)]
    and the [setSyncing(false)] of its [finally].  The condition of the
    inner [if] is the promise returned by [shouldPush], which is not
    awaited. *)
Definition sync (env : Env) : M unit :=
  fun c =>
    let status := selectedRepositoryStatus env in
    match selectedRepository env with
    | None => ret tt c
    | Some repository =>
        if negb (canSync env c) then ret tt c
        else
          (rebase <- shouldRebase env ;;
           match rebase with
           | None => ret tt
           | Some rebase =>
               let upstream := status_upstreamBranch status in
               ok <- confirm env "Sync changes" (sync_message rebase upstream) ;;
               if negb ok then ret tt
               else
                 setSyncing true ;;
                 try_finally
                   (pull env repository rebase ;;
                    p <- shouldPush env repository ;;
                    if promise_truthy p then push env repository no_options
                    else ret tt)
                   (setSyncing false)
           end) c
    end.

(** The [try] block of [sync]: the pull, then the push under the test of
    the promise of [shouldPush]. *)
Definition sync_try_block (env : Env) (repository : Repository) (rebase : bool)
    : M unit :=
  pull env repository rebase ;;
  p <- shouldPush env repository ;;
  if promise_truthy p then push env repository no_options
  else ret tt.

Definition no_remotes_warning : string :=
  "Your repository has no remotes configured to publish to.".

Definition remote_placeholder (branch : string) : string :=
  "Pick a remote to publish the branch " ++ branch ++ " to:".

(** [git.remote] is awaited outside any [try]: its rejection is the
    rejection of [getRemote]. *)
Definition getRemote (env : Env) (repository : Repository) (branch : string)
    : M (option string) :=
  emit (EvRemote repository) ;;
  remotes <- await (git_remote env repository) ;;
  if (length remotes =? 0)%nat then
    emit (EvWarn no_remotes_warning) ;; ret None
  else if (length remotes =? 1)%nat then
    ret (nth_error remotes 0)
  else
    pick_strings env (remote_placeholder branch) remotes.

Definition publish_message (remote branch : string) : string :=
  "This action will push commits to '" ++ remote ++ "/" ++ branch
  ++ "' and track it as an upstream branch.".

(** [publish] leaves when [canPublish()] is false, no repository is
    selected or the branch name is missing; [remote && await confirm(..)]
    asks for the confirmation only when [getRemote] resolved to a non-empty
    name. *)
Definition publish (env : Env) : M unit :=
  fun c =>
    let status := selectedRepositoryStatus env in
    let branch := status_branch status in
    match selectedRepository env, branch with
    | Some repository, Some branch_name =>
        if negb (canPublish env c) || negb (truthy branch) then ret tt c
        else
          (remote <- getRemote env repository branch_name ;;
           match remote with
           | Some remote_name =>
               if truthy remote then
                 ok <- confirm env "Publish changes"
                         (publish_message remote_name branch_name) ;;
                 if ok then
                   push env repository
                     {| remote := remote; push_branch := branch;
                        setUpstream := Some true |}
                 else ret tt
               else ret tt
           | None => ret tt
           end) c
    | _, _ => ret tt c
    end.

(** ** Reading a run *)

Definition is_prompt (ev : Event) : bool :=
  match ev with
  | EvPick _ _ | EvConfirm _ _ => true
  | _ => false
  end.

Definition is_command (ev : Event) : bool :=
  match ev with
  | EvRemote _ | EvStatus _ | EvExec _ _ => true
  | _ => false
  end.

Definition is_notification (ev : Event) : bool :=
  match ev with
  | EvWarn _ | EvError _ => true
  | _ => false
  end.

Definition is_fire (ev : Event) : bool :=
  match ev with
  | EvFire _ => true
  | _ => false
  end.

Definition is_exec (ev : Event) : bool :=
  match ev with
  | EvExec _ _ => true
  | _ => false
  end.

Definition is_pick (ev : Event) : bool :=
  match ev with
  | EvPick _ _ => true
  | _ => false
  end.

Definition result {A : Type} (r : Outcome A * Ctl) : Outcome A := fst r.
Definition final_syncing {A : Type} (r : Outcome A * Ctl) : bool := _syncing (snd r).
Definition calls {A : Type} (r : Outcome A * Ctl) : list Event := trace (snd r).

Definition extend (c : Ctl) (evs : list Event) : Ctl :=
  {| _syncing := _syncing c; trace := trace c ++ evs |}.

(** ** Words of the specification *)

(** An optional string "is present / non-empty": it is set, and not to the
    empty string. *)
Definition non_empty (o : option string) : Prop :=
  exists s, o = Some s /\ s <> "".

(** An optional string "is absent / empty": it is not set, or set to the
    empty string. *)
Definition absent (o : option string) : Prop :=
  o = None \/ o = Some "".

(** [hay] contains [needle]. *)
Definition contains (hay needle : string) : Prop :=
  exists pre post, hay = pre ++ needle ++ post.

(** The positional tokens an optional argument contributes. *)
Definition tokens_of (o : option string) : list string :=
  match o with
  | Some s => if String.eqb s "" then [] else [s]
  | None => []
  end.

(** How a failure object with the optional message [m] is shown: as an
    error notification carrying the message when there is a non-empty one,
    and otherwise as a line on the console only. *)
Definition shown (m : option string) : Event :=
  match m with
  | Some s =>
      if String.eqb s "" then EvConsoleError (ErrorObject m) else EvError s
  | None => EvConsoleError (ErrorObject None)
  end.

(** The confirmation request of [sync] for the method [rebase]. *)
Definition sync_confirmation (env : Env) (rebase : bool) : string :=
  sync_message rebase (status_upstreamBranch (selectedRepositoryStatus env)).

(** Both prompts of [sync] are passed: a method is chosen and the
    confirmation is accepted. *)
Definition prompts_passed (env : Env) (rebase : bool) : Prop :=
  pick_answer env "Pick a sync method:" sync_methods = Some rebase /\
  confirmDialog env "Sync changes" (sync_confirmation env rebase) = true.

(** The failures of [git.exec] are error objects, with or without a
    message. *)
Definition exec_fails_with_objects (env : Env) : Prop :=
  forall repository args e,
    git_exec env repository args = Threw e -> is_object e = true.

(** ** The runs of the helpers, in closed form *)

(** What [error] shows for [e]: a message-service error, a console line,
    or nothing when the [in] test itself raises. *)
Definition report (e : JsThrown) : list Event :=
  match e with
  | ErrorObject (Some m) =>
      if truthy (Some m) then [EvError m] else [EvConsoleError e]
  | ErrorObject None => [EvConsoleError e]
  | NonObject => []
  end.

Definition error_outcome (e : JsThrown) : Outcome unit :=
  match e with
  | ErrorObject _ => Returned tt
  | NonObject => Threw in_operator_TypeError
  end.

(** What follows a [git.exec] call inside [pull] and [push]. *)
Definition exec_report (env : Env) (repository : Repository)
    (args : list string) : list Event :=
  match git_exec env repository args with
  | Returned _ => []
  | Threw e => report e
  end.

Definition exec_outcome (env : Env) (repository : Repository)
    (args : list string) : Outcome unit :=
  match git_exec env repository args with
  | Returned _ => Returned tt
  | Threw e => error_outcome e
  end.

Definition sync_prompts (env : Env) (rebase : bool) : list Event :=
  [EvPick "Pick a sync method:" (map fst sync_methods);
   EvConfirm "Sync changes" (sync_confirmation env rebase)].

(** The calls made between the two [setSyncing] calls of [sync]. *)
Definition sync_steps (env : Env) (repository : Repository) (rebase : bool)
    : list Event :=
  (EvExec repository (pull_args rebase)
   :: exec_report env repository (pull_args rebase))
  ++ match exec_outcome env repository (pull_args rebase) with
     | Returned _ =>
         EvStatus repository
         :: EvExec repository (push_args no_options)
         :: exec_report env repository (push_args no_options)
     | Threw _ => []
     end.

(** How the promise of [sync] settles once both prompts are passed. *)
Definition sync_outcome (env : Env) (repository : Repository) (rebase : bool)
    : Outcome unit :=
  match exec_outcome env repository (pull_args rebase) with
  | Returned _ => exec_outcome env repository (push_args no_options)
  | Threw e => Threw e
  end.

(** The remote [getRemote] resolves to, given the configured remotes. *)
Definition chosen_remote (env : Env) (branch : string) (remotes : list string)
    : option string :=
  match remotes with
  | [] => None
  | [r] => Some r
  | _ => pick_answer env (remote_placeholder branch)
           (map (fun s => (s, s)) remotes)
  end.

(** The calls of [getRemote]. *)
Definition selection_calls (repository : Repository) (branch : string)
    (remotes : list string) : list Event :=
  EvRemote repository
  :: match remotes with
     | [] => [EvWarn no_remotes_warning]
     | [_] => []
     | _ => [EvPick (remote_placeholder branch) remotes]
     end.

Definition publish_options (remote branch : string) : PushOptions :=
  {| remote := Some remote; push_branch := Some branch;
     setUpstream := Some true |}.

(** The calls of [publish] once [getRemote] has resolved to [remote]. *)
Definition after_selection (env : Env) (repository : Repository)
    (branch : string) (remote : option string) : list Event :=
  match remote with
  | Some r =>
      if truthy remote then
        EvConfirm "Publish changes" (publish_message r branch)
        :: (if confirmDialog env "Publish changes" (publish_message r branch)
            then EvExec repository (push_args (publish_options r branch))
                 :: exec_report env repository
                      (push_args (publish_options r branch))
            else [])
      else []
  | None => []
  end.

Definition publish_outcome (env : Env) (repository : Repository)
    (branch : string) (remote : option string) : Outcome unit :=
  match remote with
  | Some r =>
      if truthy remote
         && confirmDialog env "Publish changes" (publish_message r branch)
      then exec_outcome env repository (push_args (publish_options r branch))
      else Returned tt
  | None => Returned tt
  end.

(** ** Sample environments *)

Definition project : Repository := {| localUri := "file:///home/dev/project" |}.

Definition tracked : WorkingDirectoryStatus :=
  {| branch := Some "master"; upstreamBranch := Some "origin/master";
     aheadBehind := Some {| ahead := 0; behind := 0 |} |}.

Definition unpublished : WorkingDirectoryStatus :=
  {| branch := Some "feature-x"; upstreamBranch := None; aheadBehind := None |}.

(** A user who opens item [answer] of every pick list (or closes it) and
    answers every confirmation with [confirmed]; a client with the given
    remotes whose [exec] behaves as [exec]. *)
Definition session (status : option WorkingDirectoryStatus)
    (answer : option nat) (confirmed : bool) (remotes : list string)
    (exec : list string -> Promise unit) : Env :=
  {| selectedRepository := Some project;
     selectedRepositoryStatus := status;
     quickOpen := fun _ _ => answer;
     confirmDialog := fun _ _ => confirmed;
     git_remote := fun _ => Returned remotes;
     git_status := fun _ => Returned tracked;
     git_exec := fun _ => exec |}.

Definition exec_ok : list string -> Promise unit := fun _ => Returned tt.

(** Every command is rejected with an error object that has no message. *)
Definition exec_fails_silently : list string -> Promise unit :=
  fun _ => Threw (ErrorObject None).

(** Every command is rejected with an error object carrying [msg]. *)
Definition exec_fails_saying (msg : string) : list string -> Promise unit :=
  fun _ => Threw (ErrorObject (Some msg)).

(** Every command is rejected with a value that is not an object. *)
Definition exec_rejects_undefined : list string -> Promise unit :=
  fun _ => Threw NonObject.

Definition remote_only : PushOptions :=
  {| remote := Some "origin"; push_branch := None; setUpstream := None |}.

(** ** The quick-open protocol behind [pick]

    [pick] hands the quick-open service one item per element and an
    [onClose] callback, all of which share the [resolve] of one promise:
    running an item in mode [OPEN] resolves it with the item's value,
    running it in another mode does nothing, closing the list resolves it
    with [undefined]; a promise keeps its first resolution. *)

Inductive QuickOpenMode : Type := PREVIEW | OPEN | OPEN_IN_BACKGROUND.

Inductive QuickOpenAction : Type :=
| RunItem (index : nat) (mode : QuickOpenMode)
| CloseList.

(** The promise of [pick]: pending, or resolved with a value or with
    [undefined]. *)
Definition PickPromise (T : Type) : Type := option (option T).

(** [resolve(v)]: a promise that is already resolved stays as it is. *)
Definition resolve {T : Type} (p : PickPromise T) (v : option T) : PickPromise T :=
  match p with
  | None => Some v
  | Some _ => p
  end.

(** The [run] callback of the item built for [value]: its return value and
    the promise after it. *)
Definition item_run {T : Type} (value : T) (mode : QuickOpenMode)
    (p : PickPromise T) : bool * PickPromise T :=
  match mode with
  | OPEN => (true, resolve p (Some value))
  | _ => (false, p)
  end.

Definition quick_open_step {T : Type} (elements : list (string * T))
    (p : PickPromise T) (a : QuickOpenAction) : PickPromise T :=
  match a with
  | RunItem i mode =>
      match nth_error elements i with
      | Some (_, value) => snd (item_run value mode p)
      | None => p
      end
  | CloseList => resolve p None
  end.

(** The promise of [pick] after the user's actions on the list. *)
Definition pick_promise {T : Type} (elements : list (string * T))
    (actions : list QuickOpenAction) : PickPromise T :=
  fold_left (quick_open_step elements) actions None.

Definition is_open_run (a : QuickOpenAction) : bool :=
  match a with
  | RunItem _ OPEN => true
  | _ => false
  end.

Definition is_close (a : QuickOpenAction) : bool :=
  match a with
  | CloseList => true
  | _ => false
  end.

(** The actions that leave the promise of [pick] pending. *)
Definition leaves_pending (a : QuickOpenAction) : bool :=
  negb (is_open_run a) && negb (is_close a).

Definition is_status (ev : Event) : bool :=
  match ev with
  | EvStatus _ => true
  | _ => false
  end.

(** ** MonacoTextmateService

    [packages/monaco-textmate/src/browser/monaco-textmate-service.ts]: the
    grammar lookup handed to the textmate registry, and the activation of
    a language.  The theia registry, the grammar providers and
    [wireTmGrammars] are collaborators. *)

Record GrammarDefinition : Type := { format : string; content : string }.

(** [provider.getGrammarDefinition(scopeName, dependentScope)] *)
Definition GrammarProvider : Type := string -> string -> Promise GrammarDefinition.

Record TextmateRegistry : Type := {
  getScope : string -> option string;
  hasProvider : string -> bool;
  getProvider : string -> option GrammarProvider
}.

Inductive TmEvent : Type :=
| TmWire (grammars : list (string * string))   (* wireTmGrammars(monaco, registry, new Map(grammars)) *)
| TmWarn (msg : string) (languageId : string). (* logger.warn *)

Record TmEnv : Type := {
  theiaRegistry : TextmateRegistry;
  wireTmGrammars : list (string * string) -> Promise unit
}.

(** Calling a method on [undefined]; the text is the engine's. *)
Definition undefined_property_TypeError : JsThrown :=
  ErrorObject (Some "Cannot read property 'getGrammarDefinition' of undefined").

Definition empty_grammar : GrammarDefinition := {| format := "json"; content := "" |}.

(** The [getGrammarDefinition] callback given to [new Registry(..)] in
    [init]; [provider!] is a type assertion only. *)
Definition getGrammarDefinition (registry : TextmateRegistry)
    (scopeName dependentScope : string) : Promise GrammarDefinition :=
  if hasProvider registry scopeName then
    match getProvider registry scopeName with
    | Some provider => provider scopeName dependentScope
    | None => Threw undefined_property_TypeError
    end
  else Returned empty_grammar.

Definition no_grammar_warning : string := "No grammar for this language id".

(** [activateLanguage]: how its promise settles and what it called. *)
Definition activateLanguage (env : TmEnv) (languageId : string)
    : Outcome unit * list TmEvent :=
  let scopeName := getScope (theiaRegistry env) languageId in
  match scopeName with
  | None => (Returned tt, [])
  | Some scope =>
      if negb (truthy scopeName) then (Returned tt, [])
      else
        match getProvider (theiaRegistry env) scope with
        | None => (Returned tt, [])
        | Some _ =>
            let grammars := [(languageId, scope)] in
            match wireTmGrammars env grammars with
            | Returned _ => (Returned tt, [TmWire grammars])
            | Threw _ =>
                (Returned tt,
                 [TmWire grammars; TmWarn no_grammar_warning languageId])
            end
        end
  end.

(** ** Basic facts *)

Lemma truthy_non_empty (o : option string) : truthy o = true <-> non_empty o.
Proof.
  destruct o as [s|]; simpl.
  - rewrite negb_true_iff. split.
    + intros H. exists s. split; [reflexivity|].
      intros ->. discriminate.
    + intros (s' & [= <-] & Hne).
      apply String.eqb_neq. assumption.
  - split; [discriminate|]. intros (s & H & _). discriminate.
Qed.

Lemma truthy_absent (o : option string) : truthy o = false <-> absent o.
Proof.
  destruct o as [s|]; simpl.
  - rewrite negb_false_iff, String.eqb_eq. split.
    + intros ->. right. reflexivity.
    + intros [H|[= H]]; [discriminate|assumption].
  - split; [left; reflexivity|reflexivity].
Qed.

Lemma extend_nil (c : Ctl) : extend c [] = c.
Proof. destruct c. unfold extend. simpl. rewrite app_nil_r. reflexivity. Qed.

Lemma extend_extend (c : Ctl) (t u : list Event) :
  extend (extend c t) u = extend c (t ++ u).
Proof. unfold extend; simpl. rewrite app_assoc. reflexivity. Qed.

Lemma emit_run (ev : Event) (c : Ctl) : emit ev c = (Returned tt, extend c [ev]).
Proof. reflexivity. Qed.

Lemma labels_of_strings (l : list string) :
  map fst (map (fun s : string => (s, s)) l) = l.
Proof. rewrite map_map. simpl. apply map_id. Qed.

Section Reports.

Variable P : Event -> bool.
Hypothesis P_error : forall m, P (EvError m) = false.
Hypothesis P_console : forall e, P (EvConsoleError e) = false.

(** [error] only talks to the message service and the console. *)
Lemma report_filter (e : JsThrown) : filter P (report e) = [].
Proof.
  destruct e as [[m|]|]; simpl; rewrite ?P_console; try reflexivity.
  destruct (negb (m =? "")); simpl; rewrite ?P_error, ?P_console; reflexivity.
Qed.

Lemma exec_report_filter (env : Env) (repository : Repository)
    (args : list string) :
  filter P (exec_report env repository args) = [].
Proof.
  unfold exec_report.
  destruct (git_exec env repository args); [reflexivity|apply report_filter].
Qed.

End Reports.

Lemma exec_report_no_fire (env : Env) (repository : Repository)
    (args : list string) :
  filter is_fire (exec_report env repository args) = [].
Proof. apply exec_report_filter; reflexivity. Qed.

Lemma exec_report_no_exec (env : Env) (repository : Repository)
    (args : list string) :
  filter is_exec (exec_report env repository args) = [].
Proof. apply exec_report_filter; reflexivity. Qed.

Lemma exec_report_no_pick (env : Env) (repository : Repository)
    (args : list string) :
  filter is_pick (exec_report env repository args) = [].
Proof. apply exec_report_filter; reflexivity. Qed.

Lemma exec_report_no_prompt (env : Env) (repository : Repository)
    (args : list string) :
  filter is_prompt (exec_report env repository args) = [].
Proof. apply exec_report_filter; reflexivity. Qed.

(** ** Runs of the helpers *)

Lemma error_run (e : JsThrown) (c : Ctl) :
  error e c = (error_outcome e, extend c (report e)).
Proof.
  destruct e as [[m|]|]; simpl.
  - destruct (negb (m =? "")); reflexivity.
  - reflexivity.
  - rewrite extend_nil. reflexivity.
Qed.

Lemma exec_step_run (env : Env) (repository : Repository)
    (args : list string) (c : Ctl) :
  try_catch
    (emit (EvExec repository args) ;; await (git_exec env repository args))
    error c
  = (exec_outcome env repository args,
     extend c (EvExec repository args :: exec_report env repository args)).
Proof.
  unfold try_catch, bind, await, exec_outcome, exec_report.
  rewrite emit_run.
  destruct (git_exec env repository args) as [[]|e].
  - reflexivity.
  - rewrite error_run, extend_extend. reflexivity.
Qed.

Lemma pull_run (env : Env) (repository : Repository) (rebase : bool) (c : Ctl) :
  pull env repository rebase c
  = (exec_outcome env repository (pull_args rebase),
     extend c (EvExec repository (pull_args rebase)
               :: exec_report env repository (pull_args rebase))).
Proof. apply exec_step_run. Qed.

Lemma push_run (env : Env) (repository : Repository) (o : PushOptions) (c : Ctl) :
  push env repository o c
  = (exec_outcome env repository (push_args o),
     extend c (EvExec repository (push_args o)
               :: exec_report env repository (push_args o))).
Proof. apply exec_step_run. Qed.

(** When [git.exec] fails with objects only, [pull] and [push] return. *)
Lemma exec_outcome_contained (env : Env) (repository : Repository)
    (args : list string) :
  exec_fails_with_objects env ->
  exec_outcome env repository args = Returned tt.
Proof.
  intros Hobj. unfold exec_outcome.
  destruct (git_exec env repository args) as [[]|e] eqn:E; [reflexivity|].
  apply Hobj in E. destruct e; [reflexivity|discriminate].
Qed.

Lemma sync_run (env : Env) (c : Ctl) (repository : Repository) (rebase : bool) :
  selectedRepository env = Some repository ->
  canSync env c = true ->
  prompts_passed env rebase ->
  sync env c =
    (sync_outcome env repository rebase,
     {| _syncing := false;
        trace := trace c ++ sync_prompts env rebase ++ [EvFire true]
                 ++ sync_steps env repository rebase ++ [EvFire false] |}).
Proof.
  intros Hrepo Hcan [Hpick Hconfirm].
  unfold sync_confirmation in Hconfirm.
  unfold sync. rewrite Hrepo, Hcan. cbn [negb].
  unfold shouldRebase, pick, confirm, setSyncing, try_finally, shouldPush,
    bind, ret, emit.
  rewrite Hpick. cbn [trace _syncing]. rewrite Hconfirm. cbn [negb].
  rewrite pull_run.
  unfold sync_outcome, sync_steps, sync_prompts, sync_confirmation.
  destruct (exec_outcome env repository (pull_args rebase)) as [[]|e].
  - cbn [promise_truthy]. rewrite push_run.
    unfold extend. cbn [trace _syncing].
    destruct (exec_outcome env repository (push_args no_options));
      repeat (rewrite <- ?app_assoc; cbn [app map fst]); reflexivity.
  - unfold extend. cbn [trace _syncing].
    repeat (rewrite <- ?app_assoc; cbn [app map fst]).
    rewrite ?app_nil_r. reflexivity.
Qed.

Lemma getRemote_run (env : Env) (repository : Repository) (branch : string)
    (remotes : list string) (c : Ctl) :
  git_remote env repository = Returned remotes ->
  getRemote env repository branch c
  = (Returned (chosen_remote env branch remotes),
     extend c (selection_calls repository branch remotes)).
Proof.
  intros Hremotes.
  unfold getRemote, bind, await. rewrite emit_run, Hremotes.
  destruct remotes as [|r1 [|r2 rest]]; cbn [length Nat.eqb].
  - rewrite emit_run, extend_extend. reflexivity.
  - unfold ret. reflexivity.
  - unfold pick_strings, pick, bind, ret. rewrite emit_run, extend_extend.
    rewrite labels_of_strings. reflexivity.
Qed.

(** An eligible [publish] has a non-empty branch name at hand. *)
Lemma canPublish_branch (env : Env) (c : Ctl) :
  canPublish env c = true ->
  exists b, status_branch (selectedRepositoryStatus env) = Some b /\
            truthy (Some b) = true.
Proof.
  unfold canPublish. destruct (syncing c); [discriminate|].
  destruct (selectedRepositoryStatus env) as [st|]; [|discriminate].
  intros H. apply andb_true_iff in H. destruct H as [Hb _].
  simpl. destruct (branch st) as [b|]; [|discriminate].
  exists b. split; [reflexivity|assumption].
Qed.

Lemma publish_run (env : Env) (c : Ctl) (repository : Repository)
    (b : string) (remotes : list string) :
  selectedRepository env = Some repository ->
  canPublish env c = true ->
  status_branch (selectedRepositoryStatus env) = Some b ->
  git_remote env repository = Returned remotes ->
  publish env c
  = (publish_outcome env repository b (chosen_remote env b remotes),
     extend c (selection_calls repository b remotes
               ++ after_selection env repository b
                    (chosen_remote env b remotes))).
Proof.
  intros Hrepo Hcan Hbranch Hremotes.
  destruct (canPublish_branch env c Hcan) as (b' & Hb' & Htruthy).
  rewrite Hbranch in Hb'. injection Hb' as <-.
  unfold publish. rewrite Hrepo, Hbranch, Hcan, Htruthy. cbn [negb orb].
  unfold bind at 1. rewrite (getRemote_run env repository b remotes c Hremotes).
  unfold publish_outcome, after_selection.
  destruct (chosen_remote env b remotes) as [r|].
  - destruct (truthy (Some r)); cbn [andb].
    + unfold confirm, bind, ret. rewrite emit_run.
      destruct (confirmDialog env "Publish changes" (publish_message r b)).
      * rewrite push_run, !extend_extend. unfold publish_options.
        rewrite <- ?app_assoc. reflexivity.
      * rewrite extend_extend. reflexivity.
    + unfold ret. rewrite app_nil_r. reflexivity.
  - unfold ret. rewrite app_nil_r. reflexivity.
Qed.

(** ** Eligibility *)

(** C1: [canSync()] holds exactly when the service is idle and the status
    exists with a non-empty branch and a non-empty upstream branch;
    [canPublish()] holds exactly when the service is idle and the status
    exists with a non-empty branch and no upstream branch; the two never
    hold together. *)
Theorem canSync_canPublish_eligibility (env : Env) (c : Ctl) :
  (canSync env c = true <->
     _syncing c = false /\
     exists status, selectedRepositoryStatus env = Some status /\
       non_empty (branch status) /\ non_empty (upstreamBranch status))
  /\
  (canPublish env c = true <->
     _syncing c = false /\
     exists status, selectedRepositoryStatus env = Some status /\
       non_empty (branch status) /\ absent (upstreamBranch status))
  /\
  canSync env c && canPublish env c = false.
Proof.
  unfold canSync, canPublish, syncing.
  destruct (_syncing c); simpl.
  - split; [|split]; [split| split |reflexivity];
      try discriminate; intros [H _]; discriminate.
  - destruct (selectedRepositoryStatus env) as [status|].
    + rewrite !andb_true_iff, negb_true_iff.
      rewrite !truthy_non_empty, truthy_absent.
      split; [|split]; [split|split|].
      * intros [Hb Hu]. split; [reflexivity|]. exists status. auto.
      * intros (_ & st & [= <-] & Hb & Hu). auto.
      * intros [Hb Hu]. split; [reflexivity|]. exists status. auto.
      * intros (_ & st & [= <-] & Hb & Hu). auto.
      * destruct (truthy (branch status)), (truthy (upstreamBranch status));
          reflexivity.
    + split; [|split]; [split|split|reflexivity];
        try discriminate; intros (_ & st & H & _); discriminate.
Qed.

(** ** The sync workflow *)

Lemma sync_try_block_run (env : Env) (repository : Repository) (rebase : bool)
    (s : Ctl) :
  sync_try_block env repository rebase s
  = (sync_outcome env repository rebase,
     extend s (sync_steps env repository rebase)).
Proof.
  unfold sync_try_block, sync_outcome, sync_steps, shouldPush, bind, ret.
  rewrite pull_run.
  destruct (exec_outcome env repository (pull_args rebase)) as [[]|e].
  - rewrite emit_run. cbn [promise_truthy]. rewrite push_run, !extend_extend.
    rewrite <- ?app_assoc.
    destruct (exec_outcome env repository (push_args no_options)); reflexivity.
  - rewrite app_nil_r. reflexivity.
Qed.

(** None of the three helpers of the [try] block writes the flag. *)
Lemma helpers_keep_syncing (env : Env) (repository : Repository)
    (rebase : bool) (o : PushOptions) (s : Ctl) :
  _syncing (snd (pull env repository rebase s)) = _syncing s /\
  _syncing (snd (shouldPush env repository s)) = _syncing s /\
  _syncing (snd (push env repository o s)) = _syncing s.
Proof.
  rewrite pull_run, push_run. repeat split.
Qed.

(** C2: a sync that passes both prompts finds the flag cleared, sets it
    and fires, runs the pull and push steps with the flag set throughout
    (so that neither sync nor publish is eligible meanwhile), and clears
    the flag and fires again as its last act, whatever the steps did (an
    exception escaping them included); no other change notification occurs
    in between. *)
Theorem sync_sets_and_resets_syncing
    (env : Env) (c : Ctl) (repository : Repository) (rebase : bool) :
  selectedRepository env = Some repository ->
  canSync env c = true ->
  prompts_passed env rebase ->
  exists steps,
    calls (sync env c) =
      (trace c ++ sync_prompts env rebase
       ++ [EvFire true] ++ steps ++ [EvFire false])%list /\
    filter is_fire steps = [] /\
    filter is_fire
      (sync_prompts env rebase ++ [EvFire true] ++ steps ++ [EvFire false])
    = [EvFire true; EvFire false] /\
    final_syncing (sync env c) = false /\
    _syncing c = false /\
    exists busy done,
      setSyncing true (extend c (sync_prompts env rebase))
      = (Returned tt, busy) /\
      _syncing busy = true /\
      sync env c
      = try_finally (sync_try_block env repository rebase)
          (setSyncing false) busy /\
      snd (sync_try_block env repository rebase busy) = done /\
      _syncing done = true /\
      trace done = (trace busy ++ steps)%list /\
      snd (sync env c) = snd (setSyncing false done) /\
      (forall s,
         _syncing s = true ->
         _syncing (snd (pull env repository rebase s)) = true /\
         _syncing (snd (shouldPush env repository s)) = true /\
         _syncing (snd (push env repository no_options s)) = true /\
         canSync env s = false /\
         canPublish env s = false).
Proof.
  intros Hrepo Hcan Hprompts.
  rewrite (sync_run env c repository rebase Hrepo Hcan Hprompts).
  exists (sync_steps env repository rebase).
  assert (Hsteps : filter is_fire (sync_steps env repository rebase) = []).
  { unfold sync_steps. rewrite filter_app. cbn [filter is_fire].
    rewrite exec_report_no_fire.
    destruct (exec_outcome env repository (pull_args rebase)); [|reflexivity].
    cbn [filter is_fire app]. apply exec_report_no_fire. }
  split; [reflexivity|]. split; [assumption|]. split.
  { unfold sync_prompts. cbn [app filter is_fire].
    rewrite filter_app, Hsteps. reflexivity. }
  split; [reflexivity|]. split.
  { unfold canSync in Hcan. destruct (_syncing c); [discriminate|reflexivity]. }
  eexists. eexists.
  split; [reflexivity|]. split; [reflexivity|]. split.
  { unfold try_finally. rewrite sync_try_block_run.
    unfold setSyncing, emit, extend. cbn [trace _syncing].
    rewrite <- !app_assoc. reflexivity. }
  split; [reflexivity|]. split.
  { rewrite sync_try_block_run. reflexivity. }
  split.
  { rewrite sync_try_block_run. reflexivity. }
  split.
  { rewrite sync_try_block_run.
    unfold setSyncing, emit, extend. cbn [snd trace _syncing].
    rewrite <- !app_assoc. reflexivity. }
  intros s Hs.
  destruct (helpers_keep_syncing env repository rebase no_options s)
    as (Hpull & Hstatus & Hpush).
  rewrite Hpull, Hstatus, Hpush.
  unfold canSync, canPublish, syncing. rewrite Hs. repeat split.
Qed.

(** A run in which the pull is rejected with a value that is not an object:
    the [TypeError] of the reporter escapes [pull], and the flag is reset
    all the same. *)
Lemma sync_sets_and_resets_syncing_witness :
  result (sync (session (Some tracked) (Some 1) true [] exec_rejects_undefined)
            (start false))
  = Threw in_operator_TypeError /\
  exists steps,
    calls (sync (session (Some tracked) (Some 1) true [] exec_rejects_undefined)
             (start false)) =
      (trace (start false)
       ++ sync_prompts
            (session (Some tracked) (Some 1) true [] exec_rejects_undefined) true
       ++ [EvFire true] ++ steps ++ [EvFire false])%list /\
    filter is_fire steps = [] /\
    filter is_fire
      (sync_prompts
         (session (Some tracked) (Some 1) true [] exec_rejects_undefined) true
       ++ [EvFire true] ++ steps ++ [EvFire false])
    = [EvFire true; EvFire false] /\
    final_syncing
      (sync (session (Some tracked) (Some 1) true [] exec_rejects_undefined)
         (start false)) = false.
Proof.
  split; [reflexivity|].
  destruct (sync_sets_and_resets_syncing
              (session (Some tracked) (Some 1) true [] exec_rejects_undefined)
              (start false) project true
              eq_refl eq_refl (conj eq_refl eq_refl))
    as (steps & Hcalls & Hsteps & Hfires & Hfinal & _).
  exists steps. repeat split; assumption.
Defined.

(** C3: a confirmed rebase sync whose pull succeeds and whose re-queried
    status is not ahead (ahead-count zero, or no ahead/behind data) runs
    exactly one pull, with arguments [pull -r], and still runs a push after
    it. *)
Theorem sync_rebase_pulls_once_then_pushes
    (env : Env) (c : Ctl) (repository : Repository)
    (requeried : WorkingDirectoryStatus) :
  selectedRepository env = Some repository ->
  canSync env c = true ->
  prompts_passed env true ->
  git_exec env repository ["pull"; "-r"] = Returned tt ->
  git_status env repository = Returned requeried ->
  (aheadBehind requeried = None \/
   exists ab, aheadBehind requeried = Some ab /\ ahead ab = 0) ->
  exists steps,
    calls (sync env c) =
      (trace c ++ sync_prompts env true
       ++ [EvFire true] ++ steps ++ [EvFire false])%list /\
    filter is_exec steps =
      [EvExec repository ["pull"; "-r"]; EvExec repository ["push"]] /\
    filter is_command steps =
      [EvExec repository ["pull"; "-r"]; EvStatus repository;
       EvExec repository ["push"]] /\
    shouldPush_value requeried = true.
Proof.
  intros Hrepo Hcan Hprompts Hpull Hstatus Hahead.
  rewrite (sync_run env c repository true Hrepo Hcan Hprompts).
  exists (sync_steps env repository true).
  split; [reflexivity|].
  unfold sync_steps, exec_outcome, exec_report. cbn [pull_args app].
  rewrite Hpull. cbn [app filter is_exec is_command push_args no_options
                      setUpstream remote push_branch].
  fold (exec_report env repository ["push"]).
  rewrite (exec_report_filter is_exec), (exec_report_filter is_command)
    by reflexivity.
  repeat split.
  unfold shouldPush_value. apply orb_true_r.
Qed.

Lemma sync_rebase_pulls_once_then_pushes_witness :
  exists steps,
    calls (sync (session (Some tracked) (Some 1) true ["origin"] exec_ok)
             (start false)) =
      (trace (start false)
       ++ sync_prompts (session (Some tracked) (Some 1) true ["origin"] exec_ok)
            true
       ++ [EvFire true] ++ steps ++ [EvFire false])%list /\
    filter is_exec steps =
      [EvExec project ["pull"; "-r"]; EvExec project ["push"]] /\
    filter is_command steps =
      [EvExec project ["pull"; "-r"]; EvStatus project;
       EvExec project ["push"]] /\
    shouldPush_value tracked = true.
Proof.
  apply (sync_rebase_pulls_once_then_pushes
           (session (Some tracked) (Some 1) true ["origin"] exec_ok)
           (start false) project tracked).
  - reflexivity.
  - reflexivity.
  - split; reflexivity.
  - reflexivity.
  - reflexivity.
  - right. exists {| ahead := 0; behind := 0 |}. split; reflexivity.
Defined.

Lemma report_shown (m : option string) : report (ErrorObject m) = [shown m].
Proof.
  destruct m as [s|]; simpl; [|reflexivity].
  destruct (s =? ""); reflexivity.
Qed.

Lemma exec_failure_run (env : Env) (repository : Repository)
    (args : list string) (m : option string) :
  git_exec env repository args = Threw (ErrorObject m) ->
  exec_outcome env repository args = Returned tt /\
  exec_report env repository args = [shown m].
Proof.
  intros H. unfold exec_outcome, exec_report. rewrite H.
  split; [reflexivity|apply report_shown].
Qed.

(** C4, as stated, fails on a failure that carries no message: pull and
    push are both rejected with such an error object, each is written to
    the console, and the whole sync sends no notification at all. *)
Lemma failure_without_message_is_not_notified :
  git_exec (session (Some tracked) (Some 0) true [] exec_fails_silently)
    project (pull_args false) = Threw (ErrorObject None) /\
  calls (sync (session (Some tracked) (Some 0) true [] exec_fails_silently)
           (start false))
  = [EvPick "Pick a sync method:" (map fst sync_methods);
     EvConfirm "Sync changes"
       "This action will pull and push commits from and to 'origin/master'.";
     EvFire true;
     EvExec project ["pull"]; EvConsoleError (ErrorObject None);
     EvStatus project;
     EvExec project ["push"]; EvConsoleError (ErrorObject None);
     EvFire false] /\
  filter is_notification
    (calls (sync (session (Some tracked) (Some 0) true [] exec_fails_silently)
              (start false))) = [].
Proof. repeat split. Qed.

(** C4, amended: an error object raised by the client during pull or push
    is caught and shown: as an error notification with its message when it
    has a non-empty one, and on the console only otherwise; after a failed
    pull the sync goes on to re-query the status and to push. *)
Theorem command_error_is_shown_and_sync_goes_on
    (env : Env) (c : Ctl) (repository : Repository) (rebase : bool)
    (m : option string) :
  selectedRepository env = Some repository ->
  canSync env c = true ->
  prompts_passed env rebase ->
  git_exec env repository (pull_args rebase) = Threw (ErrorObject m) ->
  calls (sync env c) =
    (trace c ++ sync_prompts env rebase
     ++ [EvFire true;
         EvExec repository (pull_args rebase); shown m;
         EvStatus repository;
         EvExec repository ["push"]]
     ++ exec_report env repository ["push"] ++ [EvFire false])%list /\
  (forall c',
     pull env repository rebase c'
     = (Returned tt,
        extend c' [EvExec repository (pull_args rebase); shown m])) /\
  (forall o m' c',
     git_exec env repository (push_args o) = Threw (ErrorObject m') ->
     push env repository o c'
     = (Returned tt, extend c' [EvExec repository (push_args o); shown m'])) /\
  is_notification (shown m) = truthy m.
Proof.
  intros Hrepo Hcan Hprompts Hpull.
  destruct (exec_failure_run _ _ _ _ Hpull) as [Hout Hrep].
  repeat split.
  - rewrite (sync_run env c repository rebase Hrepo Hcan Hprompts).
    unfold calls, sync_steps. cbn [snd trace]. rewrite Hout, Hrep.
    reflexivity.
  - intros c'. rewrite pull_run, Hout, Hrep. reflexivity.
  - intros o m' c' Hpush.
    destruct (exec_failure_run _ _ _ _ Hpush) as [Hout' Hrep'].
    rewrite push_run, Hout', Hrep'. reflexivity.
  - destruct m as [s|]; simpl; [|reflexivity].
    destruct (s =? ""); reflexivity.
Qed.

Lemma command_error_is_shown_and_sync_goes_on_witness :
  calls (sync (session (Some tracked) (Some 1) true []
                 (exec_fails_saying "fatal: unable to access remote"))
           (start false))
  = [EvPick "Pick a sync method:" (map fst sync_methods);
     EvConfirm "Sync changes"
       "This action will fetch, rebase and push commits from and to 'origin/master'.";
     EvFire true;
     EvExec project ["pull"; "-r"]; EvError "fatal: unable to access remote";
     EvStatus project;
     EvExec project ["push"]; EvError "fatal: unable to access remote";
     EvFire false].
Proof.
  apply (command_error_is_shown_and_sync_goes_on
           (session (Some tracked) (Some 1) true []
              (exec_fails_saying "fatal: unable to access remote"))
           (start false) project true
           (Some "fatal: unable to access remote")).
  - reflexivity.
  - reflexivity.
  - split; reflexivity.
  - reflexivity.
Defined.

Lemma canSync_idle (env : Env) (c : Ctl) : canSync env c = true -> _syncing c = false.
Proof. unfold canSync. destruct (_syncing c); [discriminate|reflexivity]. Qed.

(** C5: a sync invoked while the service is busy, while [canSync()] is
    false, or while no repository is selected returns at once: nothing is
    called (no prompt, no command, no notification) and the state is the
    one it started from. *)
Theorem sync_ineligible_is_silent (env : Env) (c : Ctl) :
  _syncing c = true \/ canSync env c = false \/ selectedRepository env = None ->
  sync env c = (Returned tt, c).
Proof.
  intros H. unfold sync.
  destruct (selectedRepository env) as [repository|]; [|reflexivity].
  assert (Hcan : canSync env c = false).
  { destruct H as [H|[H|H]]; [|assumption|discriminate].
    unfold canSync. rewrite H. reflexivity. }
  rewrite Hcan. reflexivity.
Qed.

Lemma sync_ineligible_is_silent_witness :
  sync (session (Some tracked) (Some 1) true ["origin"] exec_ok) (start true)
  = (Returned tt, start true).
Proof.
  apply (sync_ineligible_is_silent
           (session (Some tracked) (Some 1) true ["origin"] exec_ok)
           (start true)).
  left. reflexivity.
Defined.

(** C6: when the method pick is closed, or the confirmation is declined,
    sync returns having shown its prompts only: no command is run, no
    change notification fires, and the flag, idle on entry, is idle on
    return. *)
Theorem sync_cancelled_runs_nothing
    (env : Env) (c : Ctl) (repository : Repository) :
  selectedRepository env = Some repository ->
  canSync env c = true ->
  (pick_answer env "Pick a sync method:" sync_methods = None \/
   exists rebase,
     pick_answer env "Pick a sync method:" sync_methods = Some rebase /\
     confirmDialog env "Sync changes" (sync_confirmation env rebase) = false) ->
  exists prompts,
    sync env c = (Returned tt, extend c prompts) /\
    filter is_command prompts = [] /\
    filter is_fire prompts = [] /\
    filter is_notification prompts = [] /\
    _syncing c = false /\
    final_syncing (sync env c) = false.
Proof.
  intros Hrepo Hcan Hcancel.
  pose proof (canSync_idle env c Hcan) as Hidle.
  assert (Hrun : exists prompts,
             sync env c = (Returned tt, extend c prompts) /\
             filter is_command prompts = [] /\
             filter is_fire prompts = [] /\
             filter is_notification prompts = []).
  { unfold sync. rewrite Hrepo, Hcan. cbn [negb].
    unfold shouldRebase, pick, confirm, bind, ret. rewrite emit_run.
    destruct Hcancel as [Hpick|(rebase & Hpick & Hdecline)]; rewrite Hpick.
    - eexists. split; [reflexivity|]. repeat split.
    - rewrite emit_run. unfold sync_confirmation in Hdecline.
      rewrite Hdecline. cbn [negb]. rewrite extend_extend.
      eexists. split; [reflexivity|]. repeat split. }
  destruct Hrun as (prompts & Hrun & Hc & Hf & Hn).
  exists prompts. rewrite Hrun.
  repeat split; assumption.
Qed.

Lemma sync_cancelled_runs_nothing_witness :
  exists prompts,
    sync (session (Some tracked) (Some 1) false ["origin"] exec_ok) (start false)
    = (Returned tt, extend (start false) prompts) /\
    filter is_command prompts = [] /\
    filter is_fire prompts = [] /\
    filter is_notification prompts = [] /\
    _syncing (start false) = false /\
    final_syncing
      (sync (session (Some tracked) (Some 1) false ["origin"] exec_ok)
         (start false)) = false.
Proof.
  apply (sync_cancelled_runs_nothing
           (session (Some tracked) (Some 1) false ["origin"] exec_ok)
           (start false) project).
  - reflexivity.
  - reflexivity.
  - right. exists true. split; reflexivity.
Defined.

(** ** Command construction *)

Lemma tokens_of_not_empty (o : option string) :
  Forall (fun t => t <> "") (tokens_of o).
Proof.
  destruct o as [s|]; simpl; [|constructor].
  destruct (s =? "") eqn:E; constructor; [|constructor].
  apply String.eqb_neq. assumption.
Qed.

(** C7, as stated, fails: [push] given a remote and no branch puts the
    remote on the command line. *)
Lemma push_args_remote_without_branch :
  remote remote_only = Some "origin" /\
  push_branch remote_only = None /\
  push_args remote_only = ["push"; "origin"].
Proof. repeat split. Qed.

(** C7, amended: the argument list starts with the operation name, then
    come the flags ([-r] for a rebase pull, [-u] for a set-upstream push),
    then the remote when one is given, then the branch when one is given,
    each on its own account; an argument that is left out or empty adds no
    token, and no token is empty. *)
Theorem command_arguments_layout (rebase : bool) (o : PushOptions) :
  pull_args rebase = "pull" :: (if rebase then ["-r"] else []) /\
  push_args o =
    ("push" :: (match setUpstream o with Some true => ["-u"] | _ => [] end)
            ++ tokens_of (remote o) ++ tokens_of (push_branch o))%list /\
  Forall (fun t => t <> "") (pull_args rebase) /\
  Forall (fun t => t <> "") (push_args o).
Proof.
  assert (Hpush : push_args o =
    ("push" :: (match setUpstream o with Some true => ["-u"] | _ => [] end)
            ++ tokens_of (remote o) ++ tokens_of (push_branch o))%list).
  { unfold push_args, tokens_of, truthy. cbn [app].
    destruct (remote o) as [r|], (push_branch o) as [b|];
      try destruct (r =? ""); try destruct (b =? ""); reflexivity. }
  split; [reflexivity|]. split; [assumption|]. split.
  - destruct rebase; repeat constructor; discriminate.
  - rewrite Hpush. constructor; [discriminate|].
    apply Forall_app. split.
    + destruct (setUpstream o) as [[|]|]; repeat constructor; discriminate.
    + apply Forall_app. split; apply tokens_of_not_empty.
Qed.

(** ** The publish workflow *)

(** C8: an eligible publish of branch [feature-x] in a repository whose
    only remote is [origin] shows no pick list, asks one confirmation whose
    message contains [origin/feature-x], and runs exactly one command,
    [push -u origin feature-x], when the user confirms, and none when the
    user declines. *)
Theorem publish_single_origin
    (env : Env) (c : Ctl) (repository : Repository) :
  selectedRepository env = Some repository ->
  canPublish env c = true ->
  status_branch (selectedRepositoryStatus env) = Some "feature-x" ->
  git_remote env repository = Returned ["origin"] ->
  exists new,
    calls (publish env c) = (trace c ++ new)%list /\
    filter is_pick new = [] /\
    filter is_prompt new =
      [EvConfirm "Publish changes" (publish_message "origin" "feature-x")] /\
    contains (publish_message "origin" "feature-x") "origin/feature-x" /\
    filter is_exec new =
      if confirmDialog env "Publish changes"
           (publish_message "origin" "feature-x")
      then [EvExec repository ["push"; "-u"; "origin"; "feature-x"]]
      else [].
Proof.
  intros Hrepo Hcan Hbranch Hremotes.
  rewrite (publish_run env c repository "feature-x" ["origin"]
             Hrepo Hcan Hbranch Hremotes).
  eexists. split; [reflexivity|].
  cbn [chosen_remote selection_calls after_selection truthy String.eqb negb
       Ascii.eqb Bool.eqb app filter is_pick is_prompt is_exec].
  destruct (confirmDialog env "Publish changes"
              (publish_message "origin" "feature-x")).
  - cbn [filter is_pick is_prompt is_exec].
    rewrite (exec_report_filter is_pick), (exec_report_filter is_prompt),
      (exec_report_filter is_exec) by reflexivity.
    repeat split.
    exists "This action will push commits to '",
           "' and track it as an upstream branch.".
    reflexivity.
  - repeat split.
    exists "This action will push commits to '",
           "' and track it as an upstream branch.".
    reflexivity.
Qed.

Lemma publish_single_origin_witness :
  exists new,
    calls (publish (session (Some unpublished) None true ["origin"] exec_ok)
             (start false)) = (trace (start false) ++ new)%list /\
    filter is_pick new = [] /\
    filter is_prompt new =
      [EvConfirm "Publish changes" (publish_message "origin" "feature-x")] /\
    contains (publish_message "origin" "feature-x") "origin/feature-x" /\
    filter is_exec new =
      if confirmDialog (session (Some unpublished) None true ["origin"] exec_ok)
           "Publish changes" (publish_message "origin" "feature-x")
      then [EvExec project ["push"; "-u"; "origin"; "feature-x"]]
      else [].
Proof.
  apply (publish_single_origin
           (session (Some unpublished) None true ["origin"] exec_ok)
           (start false) project); reflexivity.
Defined.

(** C9: in an eligible publish, with no remote configured the warning is
    issued once and nothing else happens (no prompt, no push); with one
    remote, [getRemote] resolves to it without showing a pick list; with
    two or more, a pick list of exactly the configured remotes is shown,
    and closing it ends the publish with nothing further called. *)
Theorem publish_remote_selection
    (env : Env) (c : Ctl) (repository : Repository) (b : string)
    (remotes : list string) :
  selectedRepository env = Some repository ->
  canPublish env c = true ->
  status_branch (selectedRepositoryStatus env) = Some b ->
  git_remote env repository = Returned remotes ->
  match remotes with
  | [] =>
      publish env c
      = (Returned tt,
         extend c [EvRemote repository; EvWarn no_remotes_warning])
  | [r] =>
      getRemote env repository b c
      = (Returned (Some r), extend c [EvRemote repository]) /\
      calls (publish env c)
      = (trace c ++ EvRemote repository
                 :: after_selection env repository b (Some r))%list
  | _ =>
      getRemote env repository b c
      = (Returned (pick_answer env (remote_placeholder b)
                     (map (fun s => (s, s)) remotes)),
         extend c [EvRemote repository;
                   EvPick (remote_placeholder b) remotes]) /\
      (pick_answer env (remote_placeholder b)
         (map (fun s => (s, s)) remotes) = None ->
       publish env c
       = (Returned tt,
          extend c [EvRemote repository;
                    EvPick (remote_placeholder b) remotes]))
  end.
Proof.
  intros Hrepo Hcan Hbranch Hremotes.
  pose proof (publish_run env c repository b remotes
                Hrepo Hcan Hbranch Hremotes) as Hpublish.
  pose proof (getRemote_run env repository b remotes c Hremotes) as Hget.
  destruct remotes as [|r1 [|r2 rest]].
  - exact Hpublish.
  - split; [exact Hget|]. rewrite Hpublish. reflexivity.
  - split; [exact Hget|]. intros Hclosed.
    rewrite Hpublish. cbn [chosen_remote]. rewrite Hclosed.
    cbn [publish_outcome after_selection selection_calls].
    rewrite app_nil_r. reflexivity.
Qed.

(** Two remotes, and a user who closes every pick list. *)
Lemma publish_remote_selection_witness :
  getRemote (session (Some unpublished) None true ["origin"; "fork"] exec_ok)
    project "feature-x" (start false)
  = (Returned None,
     extend (start false)
       [EvRemote project;
        EvPick "Pick a remote to publish the branch feature-x to:"
          ["origin"; "fork"]]) /\
  publish (session (Some unpublished) None true ["origin"; "fork"] exec_ok)
    (start false)
  = (Returned tt,
     extend (start false)
       [EvRemote project;
        EvPick "Pick a remote to publish the branch feature-x to:"
          ["origin"; "fork"]]).
Proof.
  pose proof (publish_remote_selection
                (session (Some unpublished) None true ["origin"; "fork"] exec_ok)
                (start false) project "feature-x" ["origin"; "fork"]
                eq_refl eq_refl eq_refl eq_refl) as [Hget Hpublish].
  split; [exact Hget|]. apply Hpublish. reflexivity.
Defined.

(** ** Containment of command failures *)

(** C10, as stated, fails on a rejection value that is not an object:
    [pull] and [push] do catch it, but the reporter's ['message' in e]
    raises inside the handler, and the promises of [sync] and of [publish]
    are rejected. *)
Lemma non_object_rejection_escapes :
  git_exec (session (Some tracked) (Some 0) true [] exec_rejects_undefined)
    project (pull_args false) = Threw NonObject /\
  result (sync (session (Some tracked) (Some 0) true [] exec_rejects_undefined)
            (start false))
  = Threw in_operator_TypeError /\
  git_exec (session (Some unpublished) None true ["origin"] exec_rejects_undefined)
    project ["push"; "-u"; "origin"; "feature-x"] = Threw NonObject /\
  result (publish
            (session (Some unpublished) None true ["origin"]
               exec_rejects_undefined)
            (start false))
  = Threw in_operator_TypeError.
Proof. repeat split. Qed.

(** C10, amended: whenever the failures of [git.exec] are error objects,
    with or without a message, a failed pull or push stays inside [pull]
    and [push]: the promise of [sync] is always resolved, and the promise
    of [publish] is rejected only when the listing of the remotes is, with
    that very rejection. *)
Theorem command_failures_are_contained (env : Env) (c : Ctl) :
  exec_fails_with_objects env ->
  result (sync env c) = Returned tt /\
  (forall e,
     result (publish env c) = Threw e ->
     exists repository,
       selectedRepository env = Some repository /\
       git_remote env repository = Threw e).
Proof.
  intros Hobj. split.
  - destruct (selectedRepository env) as [repository|] eqn:Hrepo;
      [|unfold sync; rewrite Hrepo; reflexivity].
    destruct (canSync env c) eqn:Hcan;
      [|unfold sync; rewrite Hrepo, Hcan; reflexivity].
    destruct (pick_answer env "Pick a sync method:" sync_methods)
      as [rebase|] eqn:Hpick.
    + destruct (confirmDialog env "Sync changes" (sync_confirmation env rebase))
        eqn:Hconfirm.
      * rewrite (sync_run env c repository rebase Hrepo Hcan (conj Hpick Hconfirm)).
        unfold result, sync_outcome. cbn [fst].
        rewrite !(exec_outcome_contained env repository _ Hobj). reflexivity.
      * unfold sync. rewrite Hrepo, Hcan. cbn [negb].
        unfold shouldRebase, pick, confirm, bind, ret. rewrite emit_run, Hpick.
        rewrite emit_run. unfold sync_confirmation in Hconfirm.
        rewrite Hconfirm. reflexivity.
    + unfold sync. rewrite Hrepo, Hcan. cbn [negb].
      unfold shouldRebase, pick, bind, ret. rewrite emit_run, Hpick.
      reflexivity.
  - intros e.
    destruct (selectedRepository env) as [repository|] eqn:Hrepo;
      [|unfold publish; rewrite Hrepo; discriminate].
    destruct (status_branch (selectedRepositoryStatus env)) as [b|] eqn:Hbranch;
      [|unfold publish; rewrite Hrepo, Hbranch; discriminate].
    destruct (canPublish env c) eqn:Hcan;
      [|unfold publish; rewrite Hrepo, Hbranch, Hcan; discriminate].
    destruct (git_remote env repository) as [remotes|e'] eqn:Hremotes.
    + rewrite (publish_run env c repository b remotes
                 Hrepo Hcan Hbranch Hremotes).
      unfold result, publish_outcome. cbn [fst].
      destruct (chosen_remote env b remotes) as [r|]; [|discriminate].
      rewrite (exec_outcome_contained env repository _ Hobj).
      destruct (truthy (Some r) &&
                confirmDialog env "Publish changes" (publish_message r b));
        discriminate.
    + destruct (canPublish_branch env c Hcan) as (b' & Hb' & Htruthy).
      rewrite Hbranch in Hb'. injection Hb' as <-.
      unfold publish. rewrite Hrepo, Hbranch, Hcan, Htruthy. cbn [negb orb].
      unfold getRemote, bind, await. rewrite emit_run, Hremotes.
      unfold result. cbn [fst]. intros [= <-].
      exists repository. split; [reflexivity|assumption].
Qed.

(** A confirmed sync whose pull and push both fail, and a confirmed
    publish whose push fails, each time with an error object that has no
    message: both promises are resolved. *)
Lemma command_failures_are_contained_witness :
  git_exec (session (Some tracked) (Some 1) true ["origin"] exec_fails_silently)
    project ["pull"; "-r"] = Threw (ErrorObject None) /\
  git_exec (session (Some tracked) (Some 1) true ["origin"] exec_fails_silently)
    project ["push"] = Threw (ErrorObject None) /\
  result (sync (session (Some tracked) (Some 1) true ["origin"] exec_fails_silently)
            (start false)) = Returned tt /\
  canPublish
    (session (Some unpublished) None true ["origin"] exec_fails_silently)
    (start false) = true /\
  git_exec (session (Some unpublished) None true ["origin"] exec_fails_silently)
    project ["push"; "-u"; "origin"; "feature-x"] = Threw (ErrorObject None) /\
  In (EvExec project ["push"; "-u"; "origin"; "feature-x"])
    (calls (publish
              (session (Some unpublished) None true ["origin"] exec_fails_silently)
              (start false))) /\
  result (publish
            (session (Some unpublished) None true ["origin"] exec_fails_silently)
            (start false)) = Returned tt.
Proof.
  assert (Hsync : exec_fails_with_objects
            (session (Some tracked) (Some 1) true ["origin"] exec_fails_silently)).
  { intros repository args e H. simpl in H. injection H as <-. reflexivity. }
  assert (Hpublish : exec_fails_with_objects
            (session (Some unpublished) None true ["origin"] exec_fails_silently)).
  { intros repository args e H. simpl in H. injection H as <-. reflexivity. }
  split; [reflexivity|]. split; [reflexivity|]. split.
  { apply (command_failures_are_contained
             (session (Some tracked) (Some 1) true ["origin"] exec_fails_silently)
             (start false) Hsync). }
  split; [reflexivity|]. split; [reflexivity|]. split.
  { simpl. right. right. left. reflexivity. }
  destruct (command_failures_are_contained
              (session (Some unpublished) None true ["origin"] exec_fails_silently)
              (start false) Hpublish) as [_ Hcontained].
  remember (result (publish
              (session (Some unpublished) None true ["origin"] exec_fails_silently)
              (start false))) as r eqn:Hr.
  destruct r as [[]|e]; [reflexivity|].
  destruct (Hcontained e eq_refl) as (repository & _ & Hremote).
  simpl in Hremote. discriminate.
Defined.

(** ** Every run of [sync] *)

Lemma sync_every_run (env : Env) (c : Ctl) :
  sync env c = (Returned tt, c) \/
  exists repository,
    selectedRepository env = Some repository /\
    canSync env c = true /\
    ((pick_answer env "Pick a sync method:" sync_methods = None /\
      sync env c
      = (Returned tt,
         extend c [EvPick "Pick a sync method:" (map fst sync_methods)]))
     \/
     exists rebase,
       pick_answer env "Pick a sync method:" sync_methods = Some rebase /\
       ((confirmDialog env "Sync changes" (sync_confirmation env rebase) = false /\
         sync env c = (Returned tt, extend c (sync_prompts env rebase)))
        \/
        (prompts_passed env rebase /\
         sync env c
         = (sync_outcome env repository rebase,
            {| _syncing := false;
               trace := trace c ++ sync_prompts env rebase ++ [EvFire true]
                        ++ sync_steps env repository rebase
                        ++ [EvFire false] |})))).
Proof.
  destruct (selectedRepository env) as [repository|] eqn:Hrepo;
    [|left; unfold sync; rewrite Hrepo; reflexivity].
  destruct (canSync env c) eqn:Hcan;
    [|left; unfold sync; rewrite Hrepo, Hcan; reflexivity].
  right. exists repository. split; [reflexivity|]. split; [reflexivity|].
  destruct (pick_answer env "Pick a sync method:" sync_methods)
    as [rebase|] eqn:Hpick.
  - right. exists rebase. split; [reflexivity|].
    destruct (confirmDialog env "Sync changes" (sync_confirmation env rebase))
      eqn:Hconfirm.
    + right. split; [split; assumption|].
      apply sync_run; [assumption|assumption|split; assumption].
    + left. split; [reflexivity|].
      unfold sync. rewrite Hrepo, Hcan. cbn [negb].
      unfold shouldRebase, pick, confirm, bind, ret. rewrite emit_run, Hpick.
      rewrite emit_run. unfold sync_confirmation in Hconfirm.
      rewrite Hconfirm. cbn [negb]. rewrite extend_extend. reflexivity.
  - left. split; [reflexivity|].
    unfold sync. rewrite Hrepo, Hcan. cbn [negb].
    unfold shouldRebase, pick, bind, ret. rewrite emit_run, Hpick.
    reflexivity.
Qed.

Lemma sync_steps_commands (env : Env) (repository : Repository) (rebase : bool) :
  filter is_command (sync_steps env repository rebase)
  = EvExec repository (pull_args rebase)
    :: match exec_outcome env repository (pull_args rebase) with
       | Returned _ => [EvStatus repository; EvExec repository ["push"]]
       | Threw _ => []
       end.
Proof.
  unfold sync_steps. rewrite filter_app. cbn [filter is_command].
  rewrite (exec_report_filter is_command) by reflexivity.
  destruct (exec_outcome env repository (pull_args rebase)); [|reflexivity].
  cbn [filter is_command app].
  rewrite (exec_report_filter is_command) by reflexivity. reflexivity.
Qed.

Lemma sync_steps_no_fire (env : Env) (repository : Repository) (rebase : bool) :
  filter is_fire (sync_steps env repository rebase) = [].
Proof.
  unfold sync_steps. rewrite filter_app. cbn [filter is_fire].
  rewrite exec_report_no_fire.
  destruct (exec_outcome env repository (pull_args rebase)); [|reflexivity].
  cbn [filter is_fire app]. apply exec_report_no_fire.
Qed.

(** [exec_outcome] is a rejection only through the reporter's [TypeError]
    on a rejection value that is not an object. *)
Lemma exec_outcome_threw (env : Env) (repository : Repository)
    (args : list string) (e : JsThrown) :
  exec_outcome env repository args = Threw e ->
  e = in_operator_TypeError /\ git_exec env repository args = Threw NonObject.
Proof.
  unfold exec_outcome.
  destruct (git_exec env repository args) as [[]|[m|]]; simpl;
    try discriminate.
  intros [= <-]. split; reflexivity.
Qed.

(** X1: [sync] hands the busy flag back as it found it, whatever the
    collaborators do, so that eligibility after a sync is the eligibility
    before it: the service is never left busy. *)
Theorem sync_restores_syncing (env : Env) (c : Ctl) :
  final_syncing (sync env c) = _syncing c /\
  canSync env (snd (sync env c)) = canSync env c /\
  canPublish env (snd (sync env c)) = canPublish env c.
Proof.
  assert (H : final_syncing (sync env c) = _syncing c).
  { destruct (sync_every_run env c)
      as [Hrun|(repository & _ & Hcan & [[_ Hrun]|(rebase & _ & [[_ Hrun]|[_ Hrun]])])];
      rewrite Hrun; try reflexivity.
    unfold final_syncing. cbn [snd _syncing].
    symmetry. apply canSync_idle with (env := env). assumption. }
  unfold final_syncing in H.
  unfold canSync, canPublish, syncing. rewrite H.
  split; [assumption|]. split; reflexivity.
Qed.

(** X2: in every run of [sync] the change event fires either not at all or
    exactly twice, first with the flag set and then with the flag
    cleared. *)
Theorem sync_fires_never_or_twice (env : Env) (c : Ctl) :
  exists new,
    calls (sync env c) = (trace c ++ new)%list /\
    (filter is_fire new = [] \/
     filter is_fire new = [EvFire true; EvFire false]).
Proof.
  destruct (sync_every_run env c)
    as [Hrun|(repository & _ & Hcan & [[_ Hrun]|(rebase & _ & [[_ Hrun]|[_ Hrun]])])];
    rewrite Hrun; unfold calls; cbn [snd trace extend].
  - exists []. rewrite app_nil_r. split; [reflexivity|left; reflexivity].
  - eexists. split; [reflexivity|left; reflexivity].
  - eexists. split; [reflexivity|left; reflexivity].
  - eexists. split; [reflexivity|right].
    unfold sync_prompts. cbn [app filter is_fire].
    rewrite filter_app, sync_steps_no_fire. reflexivity.
Qed.

(** X3: the git commands of a run of [sync] are none at all, or the pull
    alone (only when the pull was rejected with a value that is not an
    object), or the pull, the status query and a plain push, in that order:
    sync never lists remotes, never pushes first, and never pushes with a
    flag or a target. *)
Theorem sync_commands (env : Env) (c : Ctl) :
  exists new,
    calls (sync env c) = (trace c ++ new)%list /\
    (filter is_command new = [] \/
     exists repository rebase,
       selectedRepository env = Some repository /\
       ((filter is_command new = [EvExec repository (pull_args rebase)] /\
         git_exec env repository (pull_args rebase) = Threw NonObject)
        \/
        filter is_command new
        = [EvExec repository (pull_args rebase); EvStatus repository;
           EvExec repository ["push"]])).
Proof.
  destruct (sync_every_run env c)
    as [Hrun|(repository & Hrepo & Hcan & [[_ Hrun]|(rebase & _ & [[_ Hrun]|[_ Hrun]])])];
    rewrite Hrun; unfold calls; cbn [snd trace extend].
  - exists []. rewrite app_nil_r. split; [reflexivity|left; reflexivity].
  - eexists. split; [reflexivity|left; reflexivity].
  - eexists. split; [reflexivity|left; reflexivity].
  - eexists. split; [reflexivity|right].
    exists repository, rebase. split; [assumption|].
    unfold sync_prompts. cbn [app filter is_command].
    rewrite filter_app, sync_steps_commands. cbn [filter is_command app].
    destruct (exec_outcome env repository (pull_args rebase)) as [[]|e] eqn:E.
    + right. reflexivity.
    + left. split; [reflexivity|].
      apply exec_outcome_threw in E. apply E.
Qed.

(** X4: the promise of [sync] is rejected only with the [TypeError] that
    the reporter raises on a rejection value of [git.exec] that is not an
    object; no failure of the client is ever passed on as it is. *)
Theorem sync_rejects_only_by_reporter (env : Env) (c : Ctl) (e : JsThrown) :
  result (sync env c) = Threw e ->
  e = in_operator_TypeError /\
  exists repository args, git_exec env repository args = Threw NonObject.
Proof.
  destruct (sync_every_run env c)
    as [Hrun|(repository & _ & _ & [[_ Hrun]|(rebase & _ & [[_ Hrun]|[_ Hrun]])])];
    rewrite Hrun; unfold result; cbn [fst]; try discriminate.
  unfold sync_outcome.
  destruct (exec_outcome env repository (pull_args rebase)) as [[]|e'] eqn:E.
  - intros H. apply exec_outcome_threw in H. destruct H as [-> H].
    split; [reflexivity|]. eauto.
  - intros [= <-]. apply exec_outcome_threw in E. destruct E as [-> H].
    split; [reflexivity|]. eauto.
Qed.

Lemma sync_rejects_only_by_reporter_witness :
  in_operator_TypeError = in_operator_TypeError /\
  exists repository args,
    git_exec (session (Some tracked) (Some 0) true [] exec_rejects_undefined)
      repository args = Threw NonObject.
Proof.
  apply (sync_rejects_only_by_reporter
           (session (Some tracked) (Some 0) true [] exec_rejects_undefined)
           (start false) in_operator_TypeError).
  reflexivity.
Defined.

(** X5: when the pull of a confirmed sync is rejected with a value that is
    not an object, the sync is rejected with the reporter's [TypeError]:
    nothing is shown, the status is not re-queried, no push is run, and the
    flag is cleared and the change event fired all the same. *)
Theorem sync_pull_rejected_with_non_object
    (env : Env) (c : Ctl) (repository : Repository) (rebase : bool) :
  selectedRepository env = Some repository ->
  canSync env c = true ->
  prompts_passed env rebase ->
  git_exec env repository (pull_args rebase) = Threw NonObject ->
  sync env c
  = (Threw in_operator_TypeError,
     {| _syncing := false;
        trace := trace c ++ sync_prompts env rebase
                 ++ [EvFire true; EvExec repository (pull_args rebase);
                     EvFire false] |}).
Proof.
  intros Hrepo Hcan Hprompts Hpull.
  rewrite (sync_run env c repository rebase Hrepo Hcan Hprompts).
  unfold sync_outcome, sync_steps, exec_outcome, exec_report.
  rewrite Hpull. reflexivity.
Qed.

Lemma sync_pull_rejected_with_non_object_witness :
  sync (session (Some tracked) (Some 0) true [] exec_rejects_undefined)
    (start false)
  = (Threw in_operator_TypeError,
     {| _syncing := false;
        trace := trace (start false)
                 ++ sync_prompts
                      (session (Some tracked) (Some 0) true []
                         exec_rejects_undefined) false
                 ++ [EvFire true; EvExec project (pull_args false);
                     EvFire false] |}).
Proof.
  apply (sync_pull_rejected_with_non_object
           (session (Some tracked) (Some 0) true [] exec_rejects_undefined)
           (start false) project false).
  - reflexivity.
  - reflexivity.
  - split; reflexivity.
  - reflexivity.
Defined.

(** ** Every run of [publish] *)

Lemma publish_every_run (env : Env) (c : Ctl) :
  publish env c = (Returned tt, c) \/
  exists repository b,
    selectedRepository env = Some repository /\
    canPublish env c = true /\
    status_branch (selectedRepositoryStatus env) = Some b /\
    b <> "" /\
    ((exists e,
        git_remote env repository = Threw e /\
        publish env c = (Threw e, extend c [EvRemote repository]))
     \/
     exists remotes,
       git_remote env repository = Returned remotes /\
       publish env c
       = (publish_outcome env repository b (chosen_remote env b remotes),
          extend c (selection_calls repository b remotes
                    ++ after_selection env repository b
                         (chosen_remote env b remotes)))).
Proof.
  destruct (selectedRepository env) as [repository|] eqn:Hrepo;
    [|left; unfold publish; rewrite Hrepo; reflexivity].
  destruct (status_branch (selectedRepositoryStatus env)) as [b|] eqn:Hbranch;
    [|left; unfold publish; rewrite Hrepo, Hbranch; reflexivity].
  destruct (canPublish env c) eqn:Hcan;
    [|left; unfold publish; rewrite Hrepo, Hbranch, Hcan; reflexivity].
  right. exists repository, b.
  destruct (canPublish_branch env c Hcan) as (b' & Hb' & Htruthy).
  rewrite Hbranch in Hb'. injection Hb' as <-.
  repeat (split; [reflexivity|]). split.
  { apply truthy_non_empty in Htruthy.
    destruct Htruthy as (s & [= <-] & Hne). assumption. }
  destruct (git_remote env repository) as [remotes|e] eqn:Hremotes.
  - right. exists remotes. split; [reflexivity|].
    apply publish_run; assumption.
  - left. exists e. split; [reflexivity|].
    unfold publish. rewrite Hrepo, Hbranch, Hcan, Htruthy. cbn [negb orb].
    unfold getRemote, bind, await. rewrite emit_run, Hremotes. reflexivity.
Qed.

Lemma pick_answer_offered {T : Type} (env : Env) (placeholder : string)
    (elements : list (string * T)) (v : T) :
  pick_answer env placeholder elements = Some v -> In v (map snd elements).
Proof.
  unfold pick_answer.
  destruct (quickOpen env placeholder (map fst elements)) as [i|]; [|discriminate].
  destruct (nth_error elements i) as [[l v']|] eqn:E; [|discriminate].
  simpl. intros [= <-]. apply nth_error_In in E.
  apply (in_map snd) in E. exact E.
Qed.

Lemma chosen_remote_configured (env : Env) (b : string) (remotes : list string)
    (r : string) :
  chosen_remote env b remotes = Some r -> In r remotes.
Proof.
  destruct remotes as [|r1 [|r2 rest]]; cbn [chosen_remote].
  - discriminate.
  - intros [= <-]. left. reflexivity.
  - intros H. apply pick_answer_offered in H.
    rewrite map_map in H. cbn [snd] in H. rewrite map_id in H. exact H.
Qed.

Lemma publish_push_args (r b : string) :
  r <> "" -> b <> "" ->
  push_args (publish_options r b) = ["push"; "-u"; r; b].
Proof.
  intros Hr Hb. apply String.eqb_neq in Hr. apply String.eqb_neq in Hb.
  unfold push_args, publish_options, truthy. cbn [remote push_branch setUpstream].
  rewrite Hr, Hb. reflexivity.
Qed.

Lemma selection_calls_filter (P : Event -> bool) (repository : Repository)
    (b : string) (remotes : list string) :
  P (EvRemote repository) = false ->
  (forall m, P (EvWarn m) = false) ->
  (forall ph ls, P (EvPick ph ls) = false) ->
  filter P (selection_calls repository b remotes) = [].
Proof.
  intros Hremote Hwarn Hpick. unfold selection_calls. cbn [filter].
  rewrite Hremote.
  destruct remotes as [|r1 [|r2 rest]]; cbn [filter];
    rewrite ?Hwarn, ?Hpick; reflexivity.
Qed.

Lemma after_selection_filter (P : Event -> bool) (env : Env)
    (repository : Repository) (b : string) (chosen : option string) :
  (forall m, P (EvError m) = false) ->
  (forall e, P (EvConsoleError e) = false) ->
  (forall t m, P (EvConfirm t m) = false) ->
  (forall args, P (EvExec repository args) = false) ->
  filter P (after_selection env repository b chosen) = [].
Proof.
  intros Herror Hconsole Hconfirm Hexec. unfold after_selection.
  destruct chosen as [r|]; [|reflexivity].
  destruct (truthy (Some r)); [|reflexivity].
  cbn [filter]. rewrite Hconfirm.
  destruct (confirmDialog env "Publish changes" (publish_message r b));
    [|reflexivity].
  cbn [filter]. rewrite Hexec.
  apply exec_report_filter; assumption.
Qed.

(** X6: a publish invoked while the service is busy, while [canPublish()]
    is false, while no repository is selected or while the status has no
    branch name returns at once, with nothing called and the state
    untouched. *)
Theorem publish_ineligible_is_silent (env : Env) (c : Ctl) :
  _syncing c = true \/ canPublish env c = false \/
  selectedRepository env = None \/
  truthy (status_branch (selectedRepositoryStatus env)) = false ->
  publish env c = (Returned tt, c).
Proof.
  intros H.
  destruct (publish_every_run env c)
    as [Hrun|(repository & b & Hrepo & Hcan & Hbranch & Hne & _)];
    [assumption|exfalso].
  destruct H as [H|[H|[H|H]]].
  - unfold canPublish, syncing in Hcan. rewrite H in Hcan. discriminate.
  - congruence.
  - congruence.
  - rewrite Hbranch in H. apply truthy_absent in H.
    destruct H as [H|[= H]]; [discriminate|contradiction].
Qed.

Lemma publish_ineligible_is_silent_witness :
  publish (session (Some tracked) None true ["origin"] exec_ok) (start false)
  = (Returned tt, start false).
Proof.
  apply (publish_ineligible_is_silent
           (session (Some tracked) None true ["origin"] exec_ok) (start false)).
  right. left. reflexivity.
Defined.

(** X7: [publish] does not catch a failing [git.remote]: its promise is
    rejected with that very failure, and nothing is shown to the user, no
    warning, no prompt, no error. *)
Theorem publish_remote_listing_rejected
    (env : Env) (c : Ctl) (repository : Repository) (e : JsThrown) :
  selectedRepository env = Some repository ->
  canPublish env c = true ->
  git_remote env repository = Threw e ->
  publish env c = (Threw e, extend c [EvRemote repository]).
Proof.
  intros Hrepo Hcan Hremotes.
  destruct (publish_every_run env c)
    as [Hrun|(repository' & b & Hrepo' & _ & _ & _ & Hrun)].
  - destruct (canPublish_branch env c Hcan) as (b & Hb & Htruthy).
    unfold publish in Hrun. rewrite Hrepo, Hb, Hcan, Htruthy in Hrun.
    cbn [negb orb] in Hrun.
    unfold getRemote, bind, await in Hrun.
    rewrite emit_run, Hremotes in Hrun. discriminate.
  - rewrite Hrepo in Hrepo'. injection Hrepo' as <-.
    destruct Hrun as [(e' & He' & Hrun)|(remotes & Hr & _)]; [|congruence].
    rewrite Hremotes in He'. injection He' as <-. exact Hrun.
Qed.

(** A remote listing that fails with an error object saying why. *)
Lemma publish_remote_listing_rejected_witness :
  publish
    {| selectedRepository := Some project;
       selectedRepositoryStatus := Some unpublished;
       quickOpen := fun _ _ => None;
       confirmDialog := fun _ _ => true;
       git_remote := fun _ => Threw (ErrorObject (Some "not a git repository"));
       git_status := fun _ => Returned unpublished;
       git_exec := fun _ => exec_ok |}
    (start false)
  = (Threw (ErrorObject (Some "not a git repository")),
     extend (start false) [EvRemote project]).
Proof.
  apply publish_remote_listing_rejected; reflexivity.
Defined.

(** X8: [publish] never touches the busy flag: the flag it returns with is
    the one it started with, the change event never fires, and the status
    is never re-queried. *)
Theorem publish_leaves_syncing_alone (env : Env) (c : Ctl) :
  final_syncing (publish env c) = _syncing c /\
  exists new,
    calls (publish env c) = (trace c ++ new)%list /\
    filter is_fire new = [] /\
    filter is_status new = [].
Proof.
  destruct (publish_every_run env c)
    as [Hrun|(repository & b & _ & _ & _ & _ &
              [(e & _ & Hrun)|(remotes & _ & Hrun)])];
    rewrite Hrun; (split; [reflexivity|]); unfold calls; cbn [snd trace extend].
  - exists []. rewrite app_nil_r. repeat split.
  - eexists. repeat split.
  - eexists. split; [reflexivity|].
    rewrite !filter_app.
    rewrite !selection_calls_filter, !after_selection_filter
      by reflexivity.
    split; reflexivity.
Qed.

(** X9: an eligible publish runs at most one command, and when it runs one
    it is [push -u] of the current branch to one of the configured remotes,
    of non-empty name, after the user confirmed that very pair. *)
Theorem publish_pushes_once_to_configured_remote
    (env : Env) (c : Ctl) (repository : Repository) (b : string)
    (remotes : list string) :
  selectedRepository env = Some repository ->
  canPublish env c = true ->
  status_branch (selectedRepositoryStatus env) = Some b ->
  git_remote env repository = Returned remotes ->
  exists new,
    calls (publish env c) = (trace c ++ new)%list /\
    (filter is_exec new = [] \/
     exists r,
       In r remotes /\ r <> "" /\
       confirmDialog env "Publish changes" (publish_message r b) = true /\
       filter is_exec new = [EvExec repository ["push"; "-u"; r; b]]).
Proof.
  intros Hrepo Hcan Hbranch Hremotes.
  rewrite (publish_run env c repository b remotes Hrepo Hcan Hbranch Hremotes).
  unfold calls. cbn [snd trace extend].
  eexists. split; [reflexivity|].
  rewrite filter_app, selection_calls_filter by reflexivity.
  cbn [app]. unfold after_selection.
  destruct (chosen_remote env b remotes) as [r|] eqn:Hchosen;
    [|left; reflexivity].
  destruct (truthy (Some r)) eqn:Hr; [|left; reflexivity].
  cbn [filter is_exec].
  destruct (confirmDialog env "Publish changes" (publish_message r b))
    eqn:Hconfirm; [|left; reflexivity].
  right. exists r.
  apply truthy_non_empty in Hr. destruct Hr as (s & [= <-] & Hne).
  destruct (canPublish_branch env c Hcan) as (b' & Hb' & Htruthy).
  rewrite Hbranch in Hb'. injection Hb' as <-.
  apply truthy_non_empty in Htruthy. destruct Htruthy as (s & [= <-] & Hbne).
  split; [apply (chosen_remote_configured env b); assumption|].
  split; [assumption|]. split; [assumption|].
  cbn [filter is_exec]. rewrite exec_report_no_exec.
  rewrite publish_push_args by assumption. reflexivity.
Qed.

Lemma publish_pushes_once_to_configured_remote_witness :
  exists new,
    calls (publish (session (Some unpublished) (Some 1) true ["origin"; "fork"]
                      exec_ok) (start false))
    = (trace (start false) ++ new)%list /\
    (filter is_exec new = [] \/
     exists r,
       In r ["origin"; "fork"] /\ r <> "" /\
       confirmDialog
         (session (Some unpublished) (Some 1) true ["origin"; "fork"] exec_ok)
         "Publish changes" (publish_message r "feature-x") = true /\
       filter is_exec new = [EvExec project ["push"; "-u"; r; "feature-x"]]).
Proof.
  apply (publish_pushes_once_to_configured_remote
           (session (Some unpublished) (Some 1) true ["origin"; "fork"] exec_ok)
           (start false) project "feature-x" ["origin"; "fork"]);
    reflexivity.
Defined.

(** X10: with two or more remotes, when the user opens item [i] of the
    pick list and confirms, the branch is pushed to the [i]-th configured
    remote and to no other. *)
Theorem publish_pushes_to_picked_remote
    (env : Env) (c : Ctl) (repository : Repository) (b : string)
    (remotes : list string) (i : nat) (r : string) :
  selectedRepository env = Some repository ->
  canPublish env c = true ->
  status_branch (selectedRepositoryStatus env) = Some b ->
  git_remote env repository = Returned remotes ->
  2 <= length remotes ->
  quickOpen env (remote_placeholder b) remotes = Some i ->
  nth_error remotes i = Some r ->
  r <> "" ->
  confirmDialog env "Publish changes" (publish_message r b) = true ->
  calls (publish env c)
  = (trace c
     ++ [EvRemote repository;
         EvPick (remote_placeholder b) remotes;
         EvConfirm "Publish changes" (publish_message r b);
         EvExec repository ["push"; "-u"; r; b]]
     ++ exec_report env repository ["push"; "-u"; r; b])%list.
Proof.
  intros Hrepo Hcan Hbranch Hremotes Hlen Hanswer Hnth Hne Hconfirm.
  rewrite (publish_run env c repository b remotes Hrepo Hcan Hbranch Hremotes).
  assert (Hchosen : chosen_remote env b remotes = Some r).
  { destruct remotes as [|r1 [|r2 rest]]; cbn [length] in Hlen; try lia.
    cbn [chosen_remote]. unfold pick_answer.
    rewrite labels_of_strings, Hanswer.
    rewrite nth_error_map, Hnth. reflexivity. }
  rewrite Hchosen. unfold after_selection.
  destruct (canPublish_branch env c Hcan) as (b' & Hb' & Htruthy).
  rewrite Hbranch in Hb'. injection Hb' as <-.
  apply truthy_non_empty in Htruthy. destruct Htruthy as (s & [= <-] & Hbne).
  assert (Hr : truthy (Some r) = true).
  { apply truthy_non_empty. exists r. split; [reflexivity|assumption]. }
  rewrite Hr, Hconfirm, publish_push_args by assumption.
  unfold calls. cbn [snd trace extend].
  destruct remotes as [|r1 [|r2 rest]]; cbn [length] in Hlen; try lia.
  reflexivity.
Qed.

Lemma publish_pushes_to_picked_remote_witness :
  calls (publish (session (Some unpublished) (Some 1) true ["origin"; "fork"]
                    exec_ok) (start false))
  = (trace (start false)
     ++ [EvRemote project;
         EvPick (remote_placeholder "feature-x") ["origin"; "fork"];
         EvConfirm "Publish changes" (publish_message "fork" "feature-x");
         EvExec project ["push"; "-u"; "fork"; "feature-x"]]
     ++ exec_report
          (session (Some unpublished) (Some 1) true ["origin"; "fork"] exec_ok)
          project ["push"; "-u"; "fork"; "feature-x"])%list.
Proof.
  apply (publish_pushes_to_picked_remote
           (session (Some unpublished) (Some 1) true ["origin"; "fork"] exec_ok)
           (start false) project "feature-x" ["origin"; "fork"] 1 "fork");
    try reflexivity; try (simpl; lia); discriminate.
Defined.

(** ** The prompts of [sync] *)

Lemma string_app_assoc (s t u : string) : ((s ++ t) ++ u = s ++ (t ++ u))%string.
Proof.
  induction s as [|a s IH]; simpl; [reflexivity|]. rewrite IH. reflexivity.
Qed.

Lemma canSync_status (env : Env) (c : Ctl) :
  canSync env c = true ->
  exists status,
    selectedRepositoryStatus env = Some status /\
    non_empty (branch status) /\ non_empty (upstreamBranch status).
Proof.
  unfold canSync. destruct (_syncing c); [discriminate|].
  destruct (selectedRepositoryStatus env) as [status|]; [|discriminate].
  intros H. apply andb_true_iff in H. destruct H as [Hb Hu].
  exists status. split; [reflexivity|].
  split; apply truthy_non_empty; assumption.
Qed.

(** X11: the confirmation of an eligible sync names the upstream branch of
    the selected status, a non-empty name in quotes and never the word
    [undefined], and its wording for a rebase differs from its wording for
    a plain pull. *)
Theorem sync_confirmation_names_upstream (env : Env) (c : Ctl) :
  canSync env c = true ->
  exists upstream,
    status_upstreamBranch (selectedRepositoryStatus env) = Some upstream /\
    upstream <> "" /\
    (forall rebase,
       contains (sync_confirmation env rebase) ("'" ++ upstream ++ "'")) /\
    sync_confirmation env true <> sync_confirmation env false.
Proof.
  intros Hcan.
  destruct (canSync_status env c Hcan) as (status & Hstatus & _ & Hup).
  destruct Hup as (upstream & Hupstream & Hne).
  exists upstream. unfold sync_confirmation. rewrite Hstatus. cbn [status_upstreamBranch].
  rewrite Hupstream. split; [reflexivity|]. split; [assumption|]. split.
  - intros [|]; cbn [sync_message interpolate].
    + exists "This action will fetch, rebase and push commits from and to ", ".".
      simpl. rewrite string_app_assoc. reflexivity.
    + exists "This action will pull and push commits from and to ", ".".
      simpl. rewrite string_app_assoc. reflexivity.
  - cbn [sync_message interpolate]. simpl. congruence.
Qed.

Lemma sync_confirmation_names_upstream_witness :
  exists upstream,
    status_upstreamBranch
      (selectedRepositoryStatus
         (session (Some tracked) (Some 0) true [] exec_ok)) = Some upstream /\
    upstream <> "" /\
    (forall rebase,
       contains
         (sync_confirmation (session (Some tracked) (Some 0) true [] exec_ok)
            rebase)
         ("'" ++ upstream ++ "'")) /\
    sync_confirmation (session (Some tracked) (Some 0) true [] exec_ok) true
    <> sync_confirmation (session (Some tracked) (Some 0) true [] exec_ok) false.
Proof.
  apply (sync_confirmation_names_upstream
           (session (Some tracked) (Some 0) true [] exec_ok) (start false)).
  reflexivity.
Defined.

(** X12: whatever status [git.status] resolves to (ahead or not, with or
    without ahead/behind data), [shouldPush] issues that one query and its
    promise resolves to [true]. *)
Theorem shouldPush_resolves_to_true
    (env : Env) (repository : Repository) (c : Ctl)
    (status : WorkingDirectoryStatus) :
  git_status env repository = Returned status ->
  shouldPush env repository c
  = (Returned (Returned true), extend c [EvStatus repository]).
Proof.
  intros Hstatus. unfold shouldPush, bind, ret. rewrite emit_run, Hstatus.
  unfold shouldPush_value. rewrite orb_true_r. reflexivity.
Qed.

Lemma shouldPush_resolves_to_true_witness :
  shouldPush (session (Some tracked) None true [] exec_ok) project (start true)
  = (Returned (Returned true), extend (start true) [EvStatus project]).
Proof.
  apply (shouldPush_resolves_to_true
           (session (Some tracked) None true [] exec_ok) project (start true)
           tracked).
  reflexivity.
Defined.

(** ** The quick-open protocol *)

Lemma resolved_stays {T : Type} (elements : list (string * T))
    (actions : list QuickOpenAction) (r : option T) :
  fold_left (quick_open_step elements) actions (Some r) = Some r.
Proof.
  induction actions as [|a actions IH]; [reflexivity|].
  cbn [fold_left].
  replace (quick_open_step elements (Some r) a) with (Some r); [exact IH|].
  destruct a as [i mode|]; cbn [quick_open_step resolve]; [|reflexivity].
  destruct (nth_error elements i) as [[label v]|]; [|reflexivity].
  destruct mode; reflexivity.
Qed.

Lemma pending_step {T : Type} (elements : list (string * T))
    (a : QuickOpenAction) :
  (quick_open_step elements None a = None) \/
  (a = CloseList /\ quick_open_step elements None a = Some None) \/
  (exists i label v,
     a = RunItem i OPEN /\ nth_error elements i = Some (label, v) /\
     quick_open_step elements None a = Some (Some v)).
Proof.
  destruct a as [i mode|]; cbn [quick_open_step resolve].
  - destruct (nth_error elements i) as [[label v]|] eqn:E; [|left; reflexivity].
    destruct mode; cbn [item_run snd resolve]; try (left; reflexivity).
    right. right. exists i, label, v. repeat split. assumption.
  - right. left. split; reflexivity.
Qed.

(** X13: when the promise of [pick] is resolved, it is resolved either with
    [undefined], and then the list was closed, or with the value of one of
    the offered elements, and then that element's item was run in mode
    [OPEN]: [pick] never answers with a value it did not offer. *)
Theorem pick_resolves_with_an_offered_value {T : Type}
    (elements : list (string * T)) (actions : list QuickOpenAction)
    (r : option T) :
  pick_promise elements actions = Some r ->
  (r = None /\ In CloseList actions) \/
  (exists i label v,
     r = Some v /\ nth_error elements i = Some (label, v) /\
     In (RunItem i OPEN) actions /\ In v (map snd elements)).
Proof.
  unfold pick_promise.
  induction actions as [|a actions IH]; [discriminate|].
  cbn [fold_left].
  destruct (pending_step elements a) as [H|[[-> H]|(i & label & v & -> & Hnth & H)]];
    rewrite H.
  - intros Hr. destruct (IH Hr) as [[-> Hin]|(i & label & v & -> & Hnth & Hin & Hv)].
    + left. split; [reflexivity|right; assumption].
    + right. exists i, label, v. repeat split; try assumption. right. assumption.
  - rewrite resolved_stays. intros [= <-]. left. split; [reflexivity|left; reflexivity].
  - rewrite resolved_stays. intros [= <-]. right. exists i, label, v.
    repeat split; [assumption|left; reflexivity|].
    apply nth_error_In in Hnth. apply (in_map snd) in Hnth. exact Hnth.
Qed.

Lemma pick_resolves_with_an_offered_value_witness :
  (Some true = None /\
   In CloseList [RunItem 0 PREVIEW; RunItem 1 OPEN; CloseList]) \/
  (exists i label v,
     Some true = Some v /\ nth_error sync_methods i = Some (label, v) /\
     In (RunItem i OPEN) [RunItem 0 PREVIEW; RunItem 1 OPEN; CloseList] /\
     In v (map snd sync_methods)).
Proof.
  apply (pick_resolves_with_an_offered_value sync_methods
           [RunItem 0 PREVIEW; RunItem 1 OPEN; CloseList] (Some true)).
  reflexivity.
Defined.

Lemma pending_prefix {T : Type} (elements : list (string * T))
    (actions : list QuickOpenAction) :
  forallb leaves_pending actions = true ->
  fold_left (quick_open_step elements) actions None = None.
Proof.
  induction actions as [|a actions IH]; [reflexivity|].
  cbn [forallb fold_left]. intros H. apply andb_true_iff in H.
  destruct H as [Ha Hrest].
  replace (quick_open_step elements None a) with (@None (option T));
    [apply IH; assumption|].
  destruct a as [i [| |]|]; try discriminate;
    cbn [quick_open_step]; destruct (nth_error elements i) as [[l v]|];
    reflexivity.
Qed.

(** X14: running items in a mode other than [OPEN] leaves the promise of
    [pick] pending; the first closing of the list, or the first run of an
    item in mode [OPEN], settles it, and nothing the user does afterwards
    changes the answer. *)
Theorem pick_first_resolution_wins {T : Type}
    (elements : list (string * T)) (before after : list QuickOpenAction) :
  forallb leaves_pending before = true ->
  pick_promise elements before = None /\
  pick_promise elements (before ++ CloseList :: after) = Some None /\
  (forall i label v,
     nth_error elements i = Some (label, v) ->
     pick_promise elements (before ++ RunItem i OPEN :: after) = Some (Some v)).
Proof.
  intros Hpending. unfold pick_promise.
  pose proof (pending_prefix elements before Hpending) as Hnone.
  split; [assumption|]. split.
  - rewrite fold_left_app, Hnone. cbn [fold_left quick_open_step resolve].
    apply resolved_stays.
  - intros i label v Hnth.
    rewrite fold_left_app, Hnone. cbn [fold_left quick_open_step].
    rewrite Hnth. cbn [item_run snd resolve]. apply resolved_stays.
Qed.

Lemma pick_first_resolution_wins_witness :
  pick_promise sync_methods [RunItem 1 PREVIEW; RunItem 0 OPEN_IN_BACKGROUND]
  = None /\
  pick_promise sync_methods
    ([RunItem 1 PREVIEW; RunItem 0 OPEN_IN_BACKGROUND]
     ++ CloseList :: [RunItem 1 OPEN]) = Some None /\
  (forall i label v,
     nth_error sync_methods i = Some (label, v) ->
     pick_promise sync_methods
       ([RunItem 1 PREVIEW; RunItem 0 OPEN_IN_BACKGROUND]
        ++ RunItem i OPEN :: [RunItem 1 OPEN]) = Some (Some v)).
Proof.
  apply (pick_first_resolution_wins sync_methods
           [RunItem 1 PREVIEW; RunItem 0 OPEN_IN_BACKGROUND] [RunItem 1 OPEN]).
  reflexivity.
Defined.

(** ** The textmate service *)

(** X15: [activateLanguage] always resolves, also when [wireTmGrammars]
    fails, whatever it fails with; it wires at most once, and then the one
    pair of the language and its non-empty scope, for which a provider is
    registered; it warns, naming the language, exactly when the wiring
    failed. *)
Theorem activateLanguage_resolves (env : TmEnv) (languageId : string) :
  fst (activateLanguage env languageId) = Returned tt /\
  (snd (activateLanguage env languageId) = [] \/
   exists scope,
     getScope (theiaRegistry env) languageId = Some scope /\
     scope <> "" /\
     getProvider (theiaRegistry env) scope <> None /\
     ((wireTmGrammars env [(languageId, scope)] = Returned tt /\
       snd (activateLanguage env languageId) = [TmWire [(languageId, scope)]])
      \/
      (exists e,
         wireTmGrammars env [(languageId, scope)] = Threw e /\
         snd (activateLanguage env languageId)
         = [TmWire [(languageId, scope)];
            TmWarn no_grammar_warning languageId]))).
Proof.
  unfold activateLanguage.
  destruct (getScope (theiaRegistry env) languageId) as [scope|] eqn:Hscope;
    [|split; [reflexivity|left; reflexivity]].
  destruct (truthy (Some scope)) eqn:Htruthy; cbn [negb];
    [|split; [reflexivity|left; reflexivity]].
  destruct (getProvider (theiaRegistry env) scope) as [provider|] eqn:Hprovider;
    [|split; [reflexivity|left; reflexivity]].
  apply truthy_non_empty in Htruthy. destruct Htruthy as (s & [= <-] & Hne).
  destruct (wireTmGrammars env [(languageId, scope)]) as [[]|e] eqn:Hwire;
    (split; [reflexivity|right]); exists scope;
    (split; [reflexivity|]); (split; [assumption|]);
    (split; [rewrite Hprovider; discriminate|]).
  - left. split; [assumption|reflexivity].
  - right. exists e. split; [assumption|reflexivity].
Qed.

(** X16: [activateLanguage] does nothing at all for a language without a
    scope, with the empty scope, or with a scope that has no provider. *)
Theorem activateLanguage_skips (env : TmEnv) (languageId : string) :
  absent (getScope (theiaRegistry env) languageId) \/
  (exists scope,
     getScope (theiaRegistry env) languageId = Some scope /\
     getProvider (theiaRegistry env) scope = None) ->
  activateLanguage env languageId = (Returned tt, []).
Proof.
  unfold activateLanguage.
  intros [[H|H]|(scope & Hscope & Hprovider)].
  - rewrite H. reflexivity.
  - rewrite H. reflexivity.
  - rewrite Hscope, Hprovider. destruct (negb (truthy (Some scope))); reflexivity.
Qed.

Lemma activateLanguage_skips_witness :
  activateLanguage
    {| theiaRegistry :=
         {| getScope := fun _ => Some "";
            hasProvider := fun _ => true;
            getProvider := fun _ => Some (fun _ _ => Returned empty_grammar) |};
       wireTmGrammars := fun _ => Returned tt |}
    "typescript"
  = (Returned tt, []).
Proof.
  apply activateLanguage_skips. left. right. reflexivity.
Defined.

(** X17: the grammar lookup answers a scope without a provider with the
    empty JSON grammar; and when [hasProvider] and [getProvider] agree, it
    is rejected only when the provider's own lookup is, with that
    rejection. *)
Theorem getGrammarDefinition_falls_back
    (registry : TextmateRegistry) (scopeName dependentScope : string) :
  (forall s, hasProvider registry s = true -> getProvider registry s <> None) ->
  (hasProvider registry scopeName = false ->
   getGrammarDefinition registry scopeName dependentScope
   = Returned {| format := "json"; content := "" |}) /\
  (forall e,
     getGrammarDefinition registry scopeName dependentScope = Threw e ->
     exists provider,
       getProvider registry scopeName = Some provider /\
       provider scopeName dependentScope = Threw e).
Proof.
  intros Hagree. unfold getGrammarDefinition. split.
  - intros ->. reflexivity.
  - intros e.
    destruct (hasProvider registry scopeName) eqn:Hhas; [|discriminate].
    specialize (Hagree scopeName Hhas).
    destruct (getProvider registry scopeName) as [provider|]; [|contradiction].
    intros H. exists provider. split; [reflexivity|assumption].
Qed.

Lemma getGrammarDefinition_falls_back_witness :
  (hasProvider
     {| getScope := fun _ => None; hasProvider := fun _ => false;
        getProvider := fun _ => None |} "source.ts" = false ->
   getGrammarDefinition
     {| getScope := fun _ => None; hasProvider := fun _ => false;
        getProvider := fun _ => None |} "source.ts" "source.js"
   = Returned {| format := "json"; content := "" |}) /\
  (forall e,
     getGrammarDefinition
       {| getScope := fun _ => None; hasProvider := fun _ => false;
          getProvider := fun _ => None |} "source.ts" "source.js" = Threw e ->
     exists provider,
       getProvider
         {| getScope := fun _ => None; hasProvider := fun _ => false;
            getProvider := fun _ => None |} "source.ts" = Some provider /\
       provider "source.ts" "source.js" = Threw e).
Proof.
  apply (getGrammarDefinition_falls_back
           {| getScope := fun _ => None; hasProvider := fun _ => false;
              getProvider := fun _ => None |} "source.ts" "source.js").
  intros s H. simpl in H. discriminate.
Defined.
